(** * Block editor: reordering and in-place editing

    A shallow embedding of [src/components/BlockEditor.tsx] (the document
    store: the [blocks] array and the drag state, with the handlers that
    update them), of the presenter of [src/components/BlockItem.tsx]
    (what it renders for a block and the handlers it forwards to the
    store), and of [src/types.ts].

    Conventions.
    - A JavaScript array of blocks is a [list Slot], where a slot is
      [Some b] for a block object and [None] for [undefined]: the store can
      put [undefined] into the array (see [reorder] and
      [container_onDrop]), although the TypeScript type is [Block[]].
    - Reading a property of [undefined] throws a [TypeError]: functions
      that can do so return [option], with [None] for the throw; the state
      a throwing handler leaves behind is given by [after_throw].
    - Indices are [nat]: every index a handler receives is the position
      given by [blocks.map((block, index) => ...)] to a rendered block.
    - [uuidv4()] comes from an external package; [addBlock] takes the
      identifier it returns as an argument. *)

From Stdlib Require Import List String Ascii Bool Arith Lia Permutation.
Import ListNotations.
Open Scope string_scope.
Open Scope list_scope.
Open Scope nat_scope.

(** ** Data model ([types.ts]) *)

Definition BlockId := string.

Inductive BlockType := text | image | heading.

(** [isEditing?: boolean] is an optional field: [None] is an absent field
    (it reads as [undefined]). *)
Record Block := mkBlock {
  id : BlockId;
  type : BlockType;
  content : string;
  isEditing : option bool
}.

Definition Slot := option Block.

Definition BlockType_eqb (a b : BlockType) : bool :=
  match a, b with
  | text, text | image, image | heading, heading => true
  | _, _ => false
  end.

(** The string a [Block['type']] value is at run time. *)
Definition type_string (t : BlockType) : string :=
  match t with
  | text => "text"
  | image => "image"
  | heading => "heading"
  end.

(** ** JavaScript primitives used by the store *)

(** Truthiness of an optional boolean, as in [if (block.isEditing)] and
    [!block.isEditing]. *)
Definition truthy (v : option bool) : bool :=
  match v with
  | Some true => true
  | Some false | None => false
  end.

(** [String.prototype.toUpperCase] on the ASCII letters (the only
    characters of the three type names). *)
Definition upper_ascii (c : ascii) : ascii :=
  let n := nat_of_ascii c in
  if (97 <=? n) && (n <=? 122) then ascii_of_nat (n - 32) else c.

Fixpoint toUpperCase (s : string) : string :=
  match s with
  | EmptyString => EmptyString
  | String c rest => String (upper_ascii c) (toUpperCase rest)
  end.

(** [arr.splice(start, deleteCount, ...items)] for non-negative integer
    arguments: the pair of the array of removed elements (the call's value)
    and the array after the call.  [start] and [deleteCount] are clamped
    to the array, which is what [firstn] and [skipn] do. *)
Definition splice {A : Type} (start deleteCount : nat) (items arr : list A)
  : list A * list A :=
  (firstn deleteCount (skipn start arr),
   firstn start arr ++ items ++ skipn deleteCount (skipn start arr)).

(** [const [x] = arr] on an array of slots: the first element, or
    [undefined] when the array is empty. *)
Definition first_or_undefined (arr : list Slot) : Slot :=
  match arr with
  | x :: _ => x
  | [] => None
  end.

(** [arr[i]]: the element, or [undefined] out of range. *)
Definition index_or_undefined (arr : list Slot) (i : nat) : Slot :=
  match nth_error arr i with
  | Some x => x
  | None => None
  end.

(** [arr.map(f)] for a callback that reads a property of its argument
    before anything else: it throws on an [undefined] element. *)
Fixpoint array_map (f : Block -> Block) (arr : list Slot) : option (list Slot) :=
  match arr with
  | [] => Some []
  | None :: _ => None
  | Some block :: rest =>
      match array_map f rest with
      | Some rest' => Some (Some (f block) :: rest')
      | None => None
      end
  end.

(** ** The document store ([BlockEditor.tsx]) *)

(** [reorder(list, startIndex, endIndex)], lines 19-24. *)
Definition reorder (lst : list Slot) (startIndex endIndex : nat) : list Slot :=
  let result := lst in
  let '(removed_arr, result) := splice startIndex 1 [] result in
  let removed := first_or_undefined removed_arr in
  let '(_, result) := splice endIndex 0 [removed] result in
  result.

(** The block literal of [addBlock], lines 69-74. *)
Definition newBlock (ty : BlockType) (uuid : BlockId) : Block :=
  {| id := uuid;
     type := ty;
     content :=
       if BlockType_eqb ty image
       then ("https://placehold.co/200x150/d3d3d3/555555?text="
               ++ toUpperCase (type_string ty))%string
       else ("New " ++ type_string ty ++ " block")%string;
     isEditing := Some (negb (BlockType_eqb ty image)) |}.

(** The state updater of [addBlock], line 75:
    [(prevBlocks) => [...prevBlocks, newBlock]]. *)
Definition addBlock (ty : BlockType) (uuid : BlockId) (prevBlocks : list Slot)
  : list Slot :=
  prevBlocks ++ [Some (newBlock ty uuid)].

(** The callback of [toggleEditMode], line 81. *)
Definition toggle_block (i : BlockId) (block : Block) : Block :=
  if String.eqb (id block) i
  then {| id := id block; type := type block; content := content block;
          isEditing := Some (negb (truthy (isEditing block))) |}
  else {| id := id block; type := type block; content := content block;
          isEditing := Some false |}.

(** The state updater of [toggleEditMode], lines 79-83. *)
Definition toggleEditMode (i : BlockId) (prevBlocks : list Slot)
  : option (list Slot) :=
  array_map (toggle_block i) prevBlocks.

(** The callback of [updateBlockContent], line 89. *)
Definition update_block (i : BlockId) (c : string) (block : Block) : Block :=
  if String.eqb (id block) i
  then {| id := id block; type := type block; content := c;
          isEditing := isEditing block |}
  else block.

(** The state updater of [updateBlockContent], lines 87-91. *)
Definition updateBlockContent (i : BlockId) (c : string)
  (prevBlocks : list Slot) : option (list Slot) :=
  array_map (update_block i c) prevBlocks.

(** The double-click handler of a rendered block ([BlockItem.tsx], lines
    127-131): it forwards to [toggleEditMode] for text and heading blocks
    only. *)
Definition onDoubleClick (block : Block) (prevBlocks : list Slot)
  : option (list Slot) :=
  if BlockType_eqb (type block) text || BlockType_eqb (type block) heading
  then toggleEditMode (id block) prevBlocks
  else Some prevBlocks.

(** The state of the component: the [blocks], [isDragging] and
    [dragOverIndex] state variables, the [draggedItemIndex] ref, and the
    ['draggedBlockId'] item of the session storage. *)
Record State := mkState {
  blocks : list Slot;
  isDragging : bool;
  dragOverIndex : option nat;
  draggedItemIndex : option nat;
  draggedBlockId : option BlockId
}.

(** [setBlocks(updater)]: a throwing updater leaves no next state. *)
Definition setBlocks (updater : list Slot -> option (list Slot)) (s : State)
  : option State :=
  match updater (blocks s) with
  | Some next =>
      Some (mkState next (isDragging s) (dragOverIndex s)
              (draggedItemIndex s) (draggedBlockId s))
  | None => None
  end.

(** [handleDragStart(e, index)], lines 26-32: [blocks[index].id] throws
    when there is no block at [index], and the result is [None].  Lines
    27-28 have run by then, and the component goes on from the state
    [after_throw] gives. *)
Definition handleDragStart (index : nat) (s : State) : option State :=
  match index_or_undefined (blocks s) index with
  | Some block =>
      Some (mkState (blocks s) true (dragOverIndex s) (Some index)
              (Some (id block)))
  | None => None
  end.

(** [handleDragOver(e, index)], lines 34-40. *)
Definition handleDragOver (index : nat) (s : State) : State :=
  match draggedItemIndex s with
  | Some dragged =>
      if negb (dragged =? index)
      then mkState (blocks s) (isDragging s) (Some index)
             (draggedItemIndex s) (draggedBlockId s)
      else s
  | None => s
  end.

(** [handleDragLeave()], line 42. *)
Definition handleDragLeave (s : State) : State :=
  mkState (blocks s) (isDragging s) None (draggedItemIndex s)
    (draggedBlockId s).

(** [handleDrop(e, dropIndex)], lines 44-60. *)
Definition handleDrop (dropIndex : nat) (s : State) : State :=
  match draggedItemIndex s with
  | None =>
      mkState (blocks s) (isDragging s) None None (draggedBlockId s)
  | Some startIndex =>
      if startIndex =? dropIndex
      then mkState (blocks s) false None None None
      else
        let reorderedBlocks := reorder (blocks s) startIndex dropIndex in
        mkState reorderedBlocks false None None None
  end.

(** [handleDragEnd()], lines 62-66. *)
Definition handleDragEnd (s : State) : State :=
  mkState (blocks s) false (dragOverIndex s) None None.

(** The [onDragOver] handler of the container, line 113. *)
Definition container_onDragOver (s : State) : State :=
  if List.length (blocks s) =? 0
  then mkState (blocks s) (isDragging s) (Some 0) (draggedItemIndex s)
         (draggedBlockId s)
  else s.

(** The [onDrop] handler of the container, line 114. *)
Definition container_onDrop (s : State) : State :=
  match draggedItemIndex s with
  | Some dragged =>
      if List.length (blocks s) =? 0
      then
        let draggedBlock := index_or_undefined (blocks s) dragged in
        mkState [draggedBlock] false None None None
      else s
  | None => s
  end.

(** The [onDragLeave] handler of the container, line 115. *)
Definition container_onDragLeave (s : State) : State :=
  if List.length (blocks s) =? 0
  then mkState (blocks s) (isDragging s) None (draggedItemIndex s)
         (draggedBlockId s)
  else s.

(** The operations of the store, as the presenters and the buttons call
    them; [AddBlock] carries the identifier [uuidv4()] returns. *)
Inductive Op :=
| AddBlock (ty : BlockType) (uuid : BlockId)
| UpdateBlockContent (i : BlockId) (c : string)
| ToggleEditMode (i : BlockId)
| DragStart (index : nat)
| DragOver (index : nat)
| DragLeave
| Drop (index : nat)
| DragEnd
| ContainerDragOver
| ContainerDrop
| ContainerDragLeave.

Definition step (op : Op) (s : State) : option State :=
  match op with
  | AddBlock ty uuid => setBlocks (fun prev => Some (addBlock ty uuid prev)) s
  | UpdateBlockContent i c => setBlocks (updateBlockContent i c) s
  | ToggleEditMode i => setBlocks (toggleEditMode i) s
  | DragStart index => handleDragStart index s
  | DragOver index => Some (handleDragOver index s)
  | DragLeave => Some (handleDragLeave s)
  | Drop index => Some (handleDrop index s)
  | DragEnd => Some (handleDragEnd s)
  | ContainerDragOver => Some (container_onDragOver s)
  | ContainerDrop => Some (container_onDrop s)
  | ContainerDragLeave => Some (container_onDragLeave s)
  end.

(** The state a throwing operation leaves to the handlers that follow.
    [handleDragStart] throws on line 29, after [setIsDragging(true)] and
    the assignment to [draggedItemIndex.current]; the session storage item
    is not written.  An updater of [setBlocks] that throws does so while
    the component renders, and no component is left. *)
Definition after_throw (op : Op) (s : State) : option State :=
  match op with
  | DragStart index =>
      Some (mkState (blocks s) true (dragOverIndex s) (Some index)
              (draggedBlockId s))
  | _ => None
  end.

(** The state the component goes on from after an operation, whether it
    returned or threw. *)
Definition next (op : Op) (s : State) : option State :=
  match step op s with
  | Some s' => Some s'
  | None => after_throw op s
  end.

(** Running a sequence of operations, stopping at the first throw. *)
Fixpoint run (ops : list Op) (s : State) : option State :=
  match ops with
  | [] => Some s
  | op :: rest =>
      match step op s with
      | Some s' => run rest s'
      | None => None
      end
  end.

(** The class of the grid cell of the block at [index], line 121. *)
Definition cell_class (index : nat) : string :=
  if (index mod 4 =? 0) || (index mod 4 =? 3)
  then "col-span-1 sm:col-span-2"
  else "col-span-1 sm:col-span-1".

(** ** The block presenter ([BlockItem.tsx]) *)

(** [beingDragged], line 41.  [sessionStorage.getItem] gives [null] for an
    absent item, which no identifier is equal to. *)
Definition beingDragged (s : State) (block : Block) : bool :=
  isDragging s &&
  match draggedBlockId s with
  | Some stored => String.eqb (id block) stored
  | None => false
  end.

(** [isDragOver], line 42. *)
Definition isDragOver (s : State) (index : nat) : bool :=
  match dragOverIndex s with
  | Some over => over =? index
  | None => false
  end.

(** [getItemStyle()], lines 44-55. *)
Definition getItemStyle (s : State) (block : Block) (index : nat) : string :=
  let baseStyles :=
    "user-select-none p-4 mb-2 border rounded-lg flex flex-col gap-2 transition-all duration-200 ease-in-out font-inter " in
  let baseStyles := (baseStyles ++ "bg-white shadow-sm border-gray-200 ")%string in
  if beingDragged s block
  then (baseStyles ++ "opacity-50 border-blue-400 bg-blue-100 ")%string
  else if isDragOver s index
  then (baseStyles ++ "bg-blue-50 border-blue-400 ring-2 ring-blue-300 ")%string
  else if truthy (isEditing block)
  then (baseStyles ++ "bg-yellow-50 border-yellow-400 ring-2 ring-yellow-300 ")%string
  else baseStyles.

(** [handleKeyDown(e)], lines 57-64, for a key event with the given [key]
    and [shiftKey]: whether [e.preventDefault()] was called, and the
    [blocks] array after the handler. *)
Definition handleKeyDown (key : string) (shiftKey : bool) (block : Block)
  (prevBlocks : list Slot) : bool * option (list Slot) :=
  if String.eqb key "Enter"
     && negb (shiftKey && BlockType_eqb (type block) text)
  then (true, toggleEditMode (id block) prevBlocks)
  else if String.eqb key "Escape"
  then (false, toggleEditMode (id block) prevBlocks)
  else (false, Some prevBlocks).

(** [s.split('\n').length]: one more than the line feeds of [s]. *)
Fixpoint split_length (s : string) : nat :=
  match s with
  | EmptyString => 1
  | String c rest =>
      if Ascii.eqb c "010"%char then S (split_length rest)
      else split_length rest
  end.

(** The elements [renderBlockContent] returns, with the attributes that
    depend on the block. *)
Inductive Element :=
| input_text (value : string)
| textarea (value : string) (rows : nat)
| p (children : string)
| h2 (children : string)
| img (src : string).

(** [renderBlockContent(block)], lines 66-116; the [default] case of the
    [switch] is for no value of the type. *)
Definition renderBlockContent (block : Block) : Element :=
  let static :=
    match type block with
    | text => p (content block)
    | heading => h2 (content block)
    | image => img (content block)
    end in
  if truthy (isEditing block)
  then
    if BlockType_eqb (type block) heading
    then input_text (content block)
    else if BlockType_eqb (type block) text
    then textarea (content block) (Nat.max 2 (split_length (content block)))
    else static
  else static.

(** The [draggable] attribute of the block's element, line 120. *)
Definition draggable (block : Block) : bool :=
  negb (truthy (isEditing block)).

(** The [onBlur] handler of the two inputs, lines 75 and 87. *)
Definition onBlur (block : Block) (prevBlocks : list Slot)
  : option (list Slot) :=
  toggleEditMode (id block) prevBlocks.

(** The [onChange] handler of the two inputs, lines 74 and 86, for an
    input whose value is now [value]. *)
Definition onChange (value : string) (block : Block) (prevBlocks : list Slot)
  : option (list Slot) :=
  updateBlockContent (id block) value prevBlocks.

(** ** Documents and the properties of the specification *)

(** A document is an array all of whose slots hold a block. *)
Definition doc (D : list Block) : list Slot := map Some D.

Definition ids (D : list Block) : list BlockId := map id D.

(** The [editing] flag of the specification: [block.isEditing] read as a
    condition. *)
Definition editing (b : Block) : bool := truthy (isEditing b).

Definition editing_count (D : list Block) : nat :=
  List.length (filter editing D).

Definition at_most_one_editing (D : list Block) : bool :=
  editing_count D <=? 1.

Definition is_image (b : Block) : bool := BlockType_eqb (type b) image.

Definition no_image_editing (D : list Block) : bool :=
  forallb (fun b => negb (is_image b && editing b)) D.

(** The array without its element at position [k]. *)
Definition remove_at {A : Type} (k : nat) (l : list A) : list A :=
  firstn k l ++ skipn (S k) l.

(** The array with [x] put in at position [k] (at the end when [k] is past
    it). *)
Definition insert_at {A : Type} (k : nat) (x : A) (l : list A) : list A :=
  firstn k l ++ x :: skipn k l.

(** A drag of the block at [i] is in progress on document [D]. *)
Definition dragging (D : list Block) (i : nat) (s : State) : Prop :=
  blocks s = doc D /\ draggedItemIndex s = Some i /\ i < List.length D.

Definition blkA : Block := mkBlock "A" heading "Title" None.
Definition blkB : Block := mkBlock "B" text "Body" None.
Definition blkC : Block := mkBlock "C" image "https://example.org/c.png" None.

(** A text block in edit mode. *)
Definition blkE : Block := mkBlock "E" text "Draft" (Some true).

Definition idle (D : list Block) : State :=
  mkState (doc D) false None None None.

(** The state holds document [D], and the drag it records, if any, is of
    one of its blocks. *)
Definition holds (s : State) (D : list Block) : Prop :=
  blocks s = doc D /\
  forall i, draggedItemIndex s = Some i -> i < List.length D.

(** What the presenters ask of the store: [toggleEditMode] gets an
    identifier that no image block carries (the double-click handler
    forwards for text and heading blocks only, and only these render the
    input whose key and blur handlers call it). *)
Definition presenter_call (op : Op) (s : State) : Prop :=
  match op with
  | ToggleEditMode i =>
      forall b, In (Some b) (blocks s) -> id b = i -> is_image b = false
  | _ => True
  end.

(** The states a sequence of allowed operations leads to, each operation
    returning. *)
Inductive reachable (allowed : Op -> State -> Prop) (s0 : State)
  : State -> Prop :=
| reachable_init : reachable allowed s0 s0
| reachable_step s op s' :
    reachable allowed s0 s -> allowed op s -> step op s = Some s' ->
    reachable allowed s0 s'.

(** [AddBlock] comes with an identifier no block of the state carries, as
    [uuidv4()] is taken to give. *)
Definition fresh_uuid (op : Op) (s : State) : Prop :=
  match op with
  | AddBlock _ uuid => forall b, In (Some b) (blocks s) -> id b <> uuid
  | _ => True
  end.

(** The states any sequence of operations leads to, with any arguments,
    a throwing handler included. *)
Inductive reachable_past_throws (s0 : State) : State -> Prop :=
| past_throws_init : reachable_past_throws s0 s0
| past_throws_next s op s' :
    reachable_past_throws s0 s -> next op s = Some s' ->
    reachable_past_throws s0 s'.


(** The array holds a block with the identifier. *)
Definition carries (arr : list Slot) (i : BlockId) : Prop :=
  exists b, In (Some b) arr /\ id b = i.

(** The second array is no shorter than the first and holds a block for
    every identifier the first holds one for. *)
Definition keeps_blocks (arr arr' : list Slot) : Prop :=
  List.length arr <= List.length arr' /\
  forall i, carries arr i -> carries arr' i.

(** Whether the element is one of the two input controls. *)
Definition is_input (e : Element) : bool :=
  match e with
  | input_text _ | textarea _ _ => true
  | _ => false
  end.

(** Closes the goals that say a handler left [blocks] and the recorded
    drag alone, by cases on the handler's tests. *)
Ltac untouched :=
  unfold handleDragOver, handleDragLeave, handleDragEnd,
    container_onDragOver, container_onDragLeave;
  repeat match goal with
         | |- context [match ?x with _ => _ end] => destruct x eqn:?
         end;
  cbn; auto.

(** ** Arrays: removing and inserting one element *)

Section Arrays.
Context {A : Type}.
Implicit Types (l : list A) (x : A) (k : nat).

Lemma remove_at_split l1 x l2 :
  remove_at (List.length l1) (l1 ++ x :: l2) = l1 ++ l2.
Proof.
  unfold remove_at.
  rewrite firstn_app, Nat.sub_diag, firstn_all. cbn [firstn].
  rewrite app_nil_r.
  change (S (List.length l1)) with (1 + List.length l1).
  rewrite <- skipn_skipn, skipn_app, Nat.sub_diag, skipn_all.
  reflexivity.
Qed.

Lemma insert_at_split l1 x l2 :
  insert_at (List.length l1) x (l1 ++ l2) = l1 ++ x :: l2.
Proof.
  unfold insert_at.
  rewrite firstn_app, skipn_app, Nat.sub_diag, firstn_all, skipn_all.
  cbn. now rewrite app_nil_r.
Qed.

Lemma insert_at_length k x l :
  List.length (insert_at k x l) = S (List.length l).
Proof.
  unfold insert_at. rewrite length_app. cbn [List.length].
  rewrite Nat.add_succ_r, <- length_app, firstn_skipn. reflexivity.
Qed.

Lemma insert_at_perm k x l : Permutation (insert_at k x l) (x :: l).
Proof.
  unfold insert_at. symmetry.
  rewrite <- (firstn_skipn k l) at 1. apply Permutation_middle.
Qed.

Lemma insert_at_nth k x l :
  k <= List.length l -> nth_error (insert_at k x l) k = Some x.
Proof.
  intros Hk. unfold insert_at.
  rewrite nth_error_app2; rewrite length_firstn, Nat.min_l by assumption.
  - now rewrite Nat.sub_diag.
  - apply Nat.le_refl.
Qed.

Lemma remove_at_insert_at k x l :
  k <= List.length l -> remove_at k (insert_at k x l) = l.
Proof.
  intros Hk.
  rewrite <- (firstn_skipn k l) at 2.
  assert (Hlen : List.length (firstn k l) = k)
    by (rewrite length_firstn; lia).
  unfold insert_at. rewrite <- Hlen at 1.
  apply remove_at_split.
Qed.

Lemma remove_at_length k x l :
  nth_error l k = Some x -> S (List.length (remove_at k l)) = List.length l.
Proof.
  intros H. apply nth_error_split in H as (l1 & l2 & -> & <-).
  rewrite remove_at_split, !length_app. cbn. lia.
Qed.

Lemma insert_at_remove_at k x l :
  nth_error l k = Some x -> insert_at k x (remove_at k l) = l.
Proof.
  intros H. apply nth_error_split in H as (l1 & l2 & -> & <-).
  rewrite remove_at_split. apply insert_at_split.
Qed.

Lemma remove_at_perm k x l :
  nth_error l k = Some x -> Permutation (x :: remove_at k l) l.
Proof.
  intros H. apply nth_error_split in H as (l1 & l2 & -> & <-).
  rewrite remove_at_split. apply Permutation_middle.
Qed.
End Arrays.

(** ** Documents as arrays *)

Lemma doc_length D : List.length (doc D) = List.length D.
Proof. apply length_map. Qed.

Lemma doc_index D k :
  index_or_undefined (doc D) k = nth_error D k.
Proof.
  unfold index_or_undefined, doc. rewrite nth_error_map.
  now destruct (nth_error D k).
Qed.

Lemma array_map_doc f D : array_map f (doc D) = Some (doc (map f D)).
Proof.
  induction D as [|b D IH]; cbn; [reflexivity|].
  unfold doc in IH. now rewrite IH.
Qed.

Lemma reorder_split (a1 a2 : list Slot) (x : Slot) (j : nat) :
  reorder (a1 ++ x :: a2) (List.length a1) j = insert_at j x (a1 ++ a2).
Proof.
  assert (Hs : skipn (List.length a1) (a1 ++ x :: a2) = x :: a2).
  { rewrite skipn_app, Nat.sub_diag, skipn_all. reflexivity. }
  assert (Hf : firstn (List.length a1) (a1 ++ x :: a2) = a1).
  { rewrite firstn_app, Nat.sub_diag, firstn_all. cbn. apply app_nil_r. }
  unfold reorder, splice, insert_at.
  rewrite Hs, Hf. reflexivity.
Qed.

Lemma insert_at_doc j x D :
  insert_at j (Some x) (doc D) = doc (insert_at j x D).
Proof.
  unfold insert_at, doc.
  rewrite map_app, firstn_map. cbn [map]. now rewrite skipn_map.
Qed.

(** On a document, with a block at [startIndex], [reorder] takes the block
    out and puts it back in at [endIndex]. *)
Lemma reorder_doc D i j x :
  nth_error D i = Some x ->
  reorder (doc D) i j = doc (insert_at j x (remove_at i D)).
Proof.
  intros H. apply nth_error_split in H as (l1 & l2 & -> & <-).
  rewrite remove_at_split, <- insert_at_doc.
  unfold doc. rewrite !map_app. cbn [map].
  rewrite <- (length_map Some l1). apply reorder_split.
Qed.

(** With no block at [startIndex], [reorder] puts [undefined] in. *)
Lemma reorder_out_of_range arr i j :
  List.length arr <= i -> reorder arr i j = insert_at j None arr.
Proof.
  intros H. unfold reorder, splice, insert_at.
  rewrite (skipn_all2 arr H), (firstn_all2 arr H).
  cbn. now rewrite app_nil_r.
Qed.

(** ** Reordering by drag and drop *)

(** The document a move of the block at [i] to position [j] gives. *)
Lemma reorder_valid D i j :
  i < List.length D ->
  exists x, nth_error D i = Some x /\
            reorder (doc D) i j = doc (insert_at j x (remove_at i D)).
Proof.
  intros Hi. destruct (nth_error D i) as [x|] eqn:Hx.
  - exists x. split; [reflexivity|]. now apply reorder_doc.
  - apply nth_error_None in Hx. lia.
Qed.

(** A drop leaves in [blocks] what [reorder] computes, also when it lands
    on the dragged block itself and the handler returns early. *)
Lemma handleDrop_blocks D i j s :
  dragging D i s -> blocks (handleDrop j s) = reorder (doc D) i j.
Proof.
  intros (Hb & Hd & Hi). unfold handleDrop. rewrite Hd.
  destruct (Nat.eqb_spec i j) as [<-|Hij]; cbn [blocks].
  - destruct (reorder_valid D i i Hi) as (x & Hx & ->).
    now rewrite (insert_at_remove_at _ _ _ Hx).
  - now rewrite Hb.
Qed.

Lemma drop_blocks_perm D i j s :
  dragging D i s ->
  exists D', blocks (handleDrop j s) = doc D' /\ Permutation D' D.
Proof.
  intros Hs. pose proof Hs as (_ & _ & Hi).
  destruct (reorder_valid D i j Hi) as (x & Hx & Hr).
  exists (insert_at j x (remove_at i D)).
  rewrite (handleDrop_blocks D i j s Hs). split; [assumption|].
  rewrite insert_at_perm. now apply remove_at_perm.
Qed.

Lemma moved_perm (D : list Block) i j x :
  nth_error D i = Some x ->
  Permutation (insert_at j x (remove_at i D)) D.
Proof.
  intros Hx. rewrite insert_at_perm. now apply remove_at_perm.
Qed.

Lemma moved_length (D : list Block) i j x :
  nth_error D i = Some x ->
  List.length (insert_at j x (remove_at i D)) = List.length D.
Proof.
  intros Hx. rewrite insert_at_length. now apply remove_at_length with x.
Qed.

(** C1: a drop from a valid source index [i] to a valid destination index
    [j] gives a document of the same length whose blocks, and so whose
    block ids, are those of [D] in another order. *)
Theorem drop_preserves_length_and_ids (D : list Block) (i j : nat) (s : State) :
  dragging D i s -> j < List.length D ->
  exists D',
    blocks (handleDrop j s) = doc D' /\
    reorder (doc D) i j = doc D' /\
    List.length D' = List.length D /\
    Permutation (ids D') (ids D) /\
    Permutation D' D.
Proof.
  intros Hs _. pose proof Hs as (_ & _ & Hi).
  destruct (reorder_valid D i j Hi) as (x & Hx & Hr).
  exists (insert_at j x (remove_at i D)).
  rewrite (handleDrop_blocks D i j s Hs).
  repeat split; try assumption.
  - now apply moved_length.
  - apply Permutation_map. now apply moved_perm.
  - now apply moved_perm.
Qed.

Lemma drop_preserves_length_and_ids_witness :
  exists D',
    blocks (handleDrop 2 (mkState (doc [blkA; blkB; blkC]) true None (Some 0)
                            (Some "A"))) = doc D' /\
    reorder (doc [blkA; blkB; blkC]) 0 2 = doc D' /\
    List.length D' = 3 /\
    Permutation (ids D') (ids [blkA; blkB; blkC]) /\
    Permutation D' [blkA; blkB; blkC].
Proof.
  apply (drop_preserves_length_and_ids [blkA; blkB; blkC] 0 2).
  - repeat split. cbn. lia.
  - cbn. lia.
Defined.

(** C2: after a drop from [i] to [j] the document has its length, the
    dragged block is at position [j], and the other blocks are in the
    order they had; dragging the first block of [[a; b; c]] over and onto
    the third gives [[b; c; a]]. *)
Theorem drop_moves_block_to_destination :
  (forall (D : list Block) (i j : nat) (s : State),
      dragging D i s -> j < List.length D -> i <> j ->
      exists D',
        blocks (handleDrop j s) = doc D' /\
        List.length D' = List.length D /\
        nth_error D' j = nth_error D i /\
        remove_at j D' = remove_at i D) /\
  (forall a b c : Block,
      run [DragStart 0; DragOver 2; Drop 2] (idle [a; b; c])
      = Some (idle [b; c; a])).
Proof.
  split; [|reflexivity].
  intros D i j s Hs Hj _. pose proof Hs as (_ & _ & Hi).
  destruct (reorder_valid D i j Hi) as (x & Hx & Hr).
  exists (insert_at j x (remove_at i D)).
  rewrite (handleDrop_blocks D i j s Hs).
  assert (Hle : j <= List.length (remove_at i D))
    by (pose proof (remove_at_length _ _ _ Hx); lia).
  repeat split.
  - assumption.
  - now apply moved_length.
  - rewrite Hx. now apply insert_at_nth.
  - now apply remove_at_insert_at.
Qed.

Lemma drop_moves_block_to_destination_witness :
  exists D',
    blocks (handleDrop 0 (mkState (doc [blkA; blkB; blkC]) true (Some 0)
                            (Some 2) (Some "C"))) = doc D' /\
    List.length D' = 3 /\
    nth_error D' 0 = Some blkC /\
    remove_at 0 D' = [blkA; blkB].
Proof.
  apply (proj1 drop_moves_block_to_destination [blkA; blkB; blkC] 2 0).
  - repeat split. cbn. lia.
  - cbn. lia.
  - discriminate.
Defined.

(** C7: moving the block at [i] to [j] and then the block at [j] back to
    [i] gives the document back, for [reorder] and for the two drags that
    perform the moves. *)
Theorem reorder_inverse (D : list Block) (i j : nat) :
  i < List.length D -> j < List.length D -> i <> j ->
  reorder (reorder (doc D) i j) j i = doc D /\
  forall s, dragging D i s ->
    exists s', handleDragStart j (handleDrop j s) = Some s' /\
               blocks (handleDrop i s') = doc D.
Proof.
  intros Hi Hj _.
  destruct (reorder_valid D i j Hi) as (x & Hx & Hr).
  assert (Hle : j <= List.length (remove_at i D))
    by (pose proof (remove_at_length _ _ _ Hx); lia).
  set (D' := insert_at j x (remove_at i D)) in *.
  assert (Hx' : nth_error D' j = Some x) by now apply insert_at_nth.
  assert (Hback : reorder (doc D') j i = doc D).
  { rewrite (reorder_doc D' j i x Hx'). unfold D'.
    rewrite remove_at_insert_at by assumption.
    now rewrite (insert_at_remove_at _ _ _ Hx). }
  split; [now rewrite Hr|].
  intros s Hs. pose proof (handleDrop_blocks D i j s Hs) as Hb. rewrite Hr in Hb.
  unfold handleDragStart. rewrite Hb, doc_index, Hx'.
  eexists. split; [reflexivity|].
  rewrite (handleDrop_blocks D' j i); [exact Hback|].
  split; [reflexivity|]. split; [reflexivity|].
  apply nth_error_Some. congruence.
Qed.

Lemma reorder_inverse_witness :
  reorder (reorder (doc [blkA; blkB; blkC]) 0 2) 2 0 = doc [blkA; blkB; blkC] /\
  forall s, dragging [blkA; blkB; blkC] 0 s ->
    exists s', handleDragStart 2 (handleDrop 2 s) = Some s' /\
               blocks (handleDrop 0 s') = doc [blkA; blkB; blkC].
Proof.
  apply (reorder_inverse [blkA; blkB; blkC] 0 2); cbn; try lia.
Defined.

(** ** Editing *)

Lemma toggle_block_frame i b :
  id (toggle_block i b) = id b /\
  type (toggle_block i b) = type b /\
  content (toggle_block i b) = content b.
Proof. unfold toggle_block. now destruct (String.eqb (id b) i). Qed.

Lemma toggle_block_editing i b :
  editing (toggle_block i b)
  = if String.eqb (id b) i then negb (editing b) else false.
Proof.
  unfold toggle_block, editing.
  destruct (String.eqb (id b) i); cbn; [|reflexivity].
  now destruct (truthy (isEditing b)).
Qed.

Lemma toggle_ids i D : ids (map (toggle_block i) D) = ids D.
Proof.
  unfold ids. rewrite map_map. apply map_ext.
  intros b. apply toggle_block_frame.
Qed.

Lemma update_block_frame i c b :
  id (update_block i c b) = id b /\
  type (update_block i c b) = type b /\
  isEditing (update_block i c b) = isEditing b.
Proof. unfold update_block. now destruct (String.eqb (id b) i). Qed.

Lemma update_block_editing i c b :
  editing (update_block i c b) = editing b.
Proof. unfold editing. now rewrite (proj2 (proj2 (update_block_frame i c b))). Qed.

Lemma update_editing_count i c D :
  editing_count (map (update_block i c) D) = editing_count D.
Proof.
  unfold editing_count. induction D as [|b D IH]; [reflexivity|].
  cbn [map filter]. rewrite update_block_editing.
  destruct (editing b); cbn [List.length]; now rewrite IH.
Qed.

(** Among blocks with distinct identifiers, those that satisfy a test only
    one identifier passes are at most one. *)
Lemma unique_id_count (p : Block -> bool) (i : BlockId) D :
  NoDup (ids D) ->
  (forall b, In b D -> p b = true -> id b = i) ->
  List.length (filter p D) <= 1.
Proof.
  induction D as [|b D IH]; intros Hnd Hp; cbn; [lia|].
  cbn in Hnd. apply NoDup_cons_iff in Hnd as [Hnotin Hnd].
  destruct (p b) eqn:Hb.
  - assert (Hnone : filter p D = []).
    { destruct (filter p D) as [|b' rest] eqn:Hf; [reflexivity|].
      assert (Hin : In b' (filter p D)) by (rewrite Hf; now left).
      apply filter_In in Hin as [Hin Hpb'].
      exfalso. apply Hnotin.
      rewrite (Hp b (or_introl eq_refl) Hb).
      rewrite <- (Hp b' (or_intror Hin) Hpb').
      now apply in_map. }
    rewrite Hnone. cbn. lia.
  - apply IH; [assumption|]. intros b' Hin. apply Hp. now right.
Qed.

Lemma filter_perm {A : Type} (p : A -> bool) (l l' : list A) :
  Permutation l l' -> Permutation (filter p l) (filter p l').
Proof.
  induction 1 as [|x l l' _ IH|x y l|l l' l'' _ IH1 _ IH2]; cbn.
  - constructor.
  - destruct (p x); [now constructor|assumption].
  - destruct (p x), (p y); try reflexivity. constructor.
  - now transitivity (filter p l').
Qed.

Lemma perm_editing_count D D' :
  Permutation D' D -> editing_count D' = editing_count D.
Proof.
  intros H. unfold editing_count.
  apply Permutation_length. now apply filter_perm.
Qed.

Lemma nth_error_doc_map (f : Block -> Block) D k b :
  nth_error D k = Some b -> nth_error (map f D) k = Some (f b).
Proof. intros H. now rewrite nth_error_map, H. Qed.

(** C10: on a document, whatever the editing flags of its blocks,
    [toggleEditMode] leaves at most one block editing: every block with
    another identifier is not editing afterwards, and the block with the
    identifier has its flag negated. *)
Theorem toggleEditMode_restores_single_editing (D : list Block) (i : BlockId) :
  NoDup (ids D) -> In i (ids D) ->
  exists D',
    toggleEditMode i (doc D) = Some (doc D') /\
    at_most_one_editing D' = true /\
    (forall b', In b' D' -> id b' <> i -> editing b' = false) /\
    (forall k b, nth_error D k = Some b -> id b = i ->
       exists b', nth_error D' k = Some b' /\ editing b' = negb (editing b)).
Proof.
  intros Hnd _. exists (map (toggle_block i) D).
  split; [apply array_map_doc|].
  assert (Hother : forall b', In b' (map (toggle_block i) D) ->
                              id b' <> i -> editing b' = false).
  { intros b' Hin Hne. apply in_map_iff in Hin as (b & <- & _).
    rewrite toggle_block_editing.
    destruct (String.eqb_spec (id b) i) as [Heq|_]; [|reflexivity].
    exfalso. apply Hne. now rewrite (proj1 (toggle_block_frame i b)). }
  repeat split.
  - unfold at_most_one_editing, editing_count. apply Nat.leb_le.
    apply unique_id_count with i; [now rewrite toggle_ids|].
    intros b' Hin Hed.
    destruct (String.eqb_spec (id b') i) as [Heq|Hne]; [assumption|].
    rewrite (Hother b' Hin Hne) in Hed. discriminate.
  - exact Hother.
  - intros k b Hk Hid. exists (toggle_block i b).
    split; [now apply nth_error_doc_map|].
    rewrite toggle_block_editing.
    now rewrite (proj2 (String.eqb_eq (id b) i) Hid).
Qed.

Lemma toggleEditMode_restores_single_editing_witness :
  exists D',
    toggleEditMode "B" (doc [blkE; blkB; mkBlock "F" heading "H" (Some true)])
    = Some (doc D') /\
    at_most_one_editing D' = true /\
    (forall b', In b' D' -> id b' <> "B" -> editing b' = false) /\
    (forall k b,
       nth_error [blkE; blkB; mkBlock "F" heading "H" (Some true)] k = Some b ->
       id b = "B" ->
       exists b', nth_error D' k = Some b' /\ editing b' = negb (editing b)).
Proof.
  apply (toggleEditMode_restores_single_editing
           [blkE; blkB; mkBlock "F" heading "H" (Some true)] "B").
  - cbn. repeat constructor; cbn; intuition discriminate.
  - cbn. tauto.
Defined.

(** With an identifier no block carries, [toggleEditMode] still takes the
    one editing block out of edit mode: the document is not as it was. *)
Lemma toggleEditMode_absent_id_changes_document :
  ~ In "Z" (ids [blkE]) /\
  editing blkE = true /\
  toggleEditMode "Z" (doc [blkE])
  = Some (doc [mkBlock "E" text "Draft" (Some false)]) /\
  toggleEditMode "Z" (doc [blkE]) <> Some (doc [blkE]).
Proof.
  repeat split; try discriminate.
  cbn. intros [H|[]]. discriminate.
Qed.

Lemma editing_count_zero D :
  editing_count D = 0 -> forall b, In b D -> editing b = false.
Proof.
  unfold editing_count. intros H b Hin.
  destruct (editing b) eqn:Hb; [|reflexivity].
  assert (Hf : In b (filter editing D)) by (apply filter_In; now split).
  destruct (filter editing D); [destruct Hf|discriminate].
Qed.

(** C4, as the code has it: [toggleEditMode] with an identifier no block
    carries keeps every block's identifier, type, content and position and
    leaves no block editing; the editing flags are as before when no block
    was editing. *)
Theorem toggleEditMode_absent_id_clears_editing (D : list Block) (i : BlockId) :
  ~ In i (ids D) ->
  exists D',
    toggleEditMode i (doc D) = Some (doc D') /\
    List.length D' = List.length D /\
    (forall k b, nth_error D k = Some b ->
       exists b', nth_error D' k = Some b' /\
                  id b' = id b /\ type b' = type b /\
                  content b' = content b /\ editing b' = false) /\
    (editing_count D = 0 -> map editing D' = map editing D).
Proof.
  intros Hnotin. exists (map (toggle_block i) D).
  assert (Hoff : forall b, In b D -> editing (toggle_block i b) = false).
  { intros b Hin. rewrite toggle_block_editing.
    destruct (String.eqb_spec (id b) i) as [Heq|_]; [|reflexivity].
    exfalso. apply Hnotin. rewrite <- Heq. now apply in_map. }
  split; [apply array_map_doc|]. split; [apply length_map|]. split.
  - intros k b Hk. exists (toggle_block i b).
    split; [now apply nth_error_doc_map|].
    destruct (toggle_block_frame i b) as (Hid & Hty & Hc).
    repeat split; try assumption.
    apply Hoff. now apply nth_error_In with k.
  - intros Hzero. rewrite map_map. apply map_ext_in.
    intros b Hin. rewrite (Hoff b Hin).
    symmetry. now apply editing_count_zero with D.
Qed.

Lemma toggleEditMode_absent_id_clears_editing_witness :
  exists D',
    toggleEditMode "Z" (doc [blkE; blkC]) = Some (doc D') /\
    List.length D' = 2 /\
    (forall k b, nth_error [blkE; blkC] k = Some b ->
       exists b', nth_error D' k = Some b' /\
                  id b' = id b /\ type b' = type b /\
                  content b' = content b /\ editing b' = false) /\
    (editing_count [blkE; blkC] = 0 ->
     map editing D' = map editing [blkE; blkC]).
Proof.
  apply (toggleEditMode_absent_id_clears_editing [blkE; blkC] "Z").
  cbn. intros [H|[H|[]]]; discriminate.
Defined.

(** C8: [updateBlockContent] keeps the length of the document and, at
    every position, the block's identifier, type and editing flag; a block
    with the identifier gets the new content, any other block is as it
    was, and so is the document when no block carries the identifier. *)
Theorem updateBlockContent_frame (D : list Block) (i : BlockId) (c : string) :
  exists D',
    updateBlockContent i c (doc D) = Some (doc D') /\
    List.length D' = List.length D /\
    (forall k b, nth_error D k = Some b ->
       exists b', nth_error D' k = Some b' /\
                  id b' = id b /\ type b' = type b /\
                  isEditing b' = isEditing b /\
                  (id b = i -> content b' = c) /\
                  (id b <> i -> b' = b)) /\
    (~ In i (ids D) -> D' = D).
Proof.
  exists (map (update_block i c) D).
  split; [apply array_map_doc|]. split; [apply length_map|]. split.
  - intros k b Hk. exists (update_block i c b).
    split; [now apply nth_error_doc_map|].
    destruct (update_block_frame i c b) as (Hid & Hty & He).
    repeat split; try assumption; unfold update_block;
      destruct (String.eqb_spec (id b) i); intros; try reflexivity;
      contradiction.
  - intros Hnotin. rewrite <- (map_id D) at 2. apply map_ext_in.
    intros b Hin. unfold update_block.
    destruct (String.eqb_spec (id b) i) as [Heq|_]; [|reflexivity].
    exfalso. apply Hnotin. rewrite <- Heq. now apply in_map.
Qed.

(** C9: [addBlock] succeeds in every state and appends one block, which
    has the identifier it was given, the type asked for, the placeholder
    content of that type, and is editing exactly when it is not an image;
    on [[a; b]] a text block is appended that is editing and reads
    "New text block". *)
Theorem addBlock_appends (D : list Block) (ty : BlockType) (uuid : BlockId) :
  (exists nb,
     addBlock ty uuid (doc D) = doc (D ++ [nb]) /\
     id nb = uuid /\ type nb = ty /\
     content nb =
       match ty with
       | text => "New text block"
       | heading => "New heading block"
       | image => "https://placehold.co/200x150/d3d3d3/555555?text=IMAGE"
       end /\
     isEditing nb =
       Some match ty with text | heading => true | image => false end) /\
  (forall s, exists s',
     step (AddBlock ty uuid) s = Some s' /\
     blocks s' = addBlock ty uuid (blocks s)) /\
  (forall a b, exists newText,
     addBlock text uuid (doc [a; b]) = doc [a; b; newText] /\
     editing newText = true /\ content newText = "New text block").
Proof.
  split; [|split].
  - exists (newBlock ty uuid).
    split; [unfold addBlock, doc; now rewrite map_app|].
    now destruct ty.
  - intros s. eexists. split; reflexivity.
  - intros a b. exists (newBlock text uuid). now repeat split.
Qed.



(** ** The two editing invariants *)

Lemma addBlock_doc ty uuid D :
  addBlock ty uuid (doc D) = doc (D ++ [newBlock ty uuid]).
Proof. unfold addBlock, doc. now rewrite map_app. Qed.

Lemma addBlock_editing_count ty uuid D :
  editing_count (D ++ [newBlock ty uuid])
  = editing_count D + (if BlockType_eqb ty image then 0 else 1).
Proof.
  unfold editing_count. rewrite filter_app, length_app.
  now destruct ty.
Qed.

(** A drop in a state that holds a document gives a state that holds a
    rearrangement of it, wherever the drop lands. *)
Lemma handleDrop_holds s D j :
  holds s D ->
  exists D', holds (handleDrop j s) D' /\ Permutation D' D.
Proof.
  intros [Hb Hd]. destruct (draggedItemIndex s) as [i|] eqn:Hi.
  - pose proof (Hd i eq_refl) as Hlt.
    destruct (reorder_valid D i j Hlt) as (x & Hx & Hr).
    exists (insert_at j x (remove_at i D)). split.
    + split.
      * rewrite (handleDrop_blocks D i j s); [assumption|]. now repeat split.
      * unfold handleDrop. rewrite Hi.
        destruct (i =? j); cbn; discriminate.
    + now apply moved_perm.
  - exists D. split; [|reflexivity].
    unfold handleDrop. rewrite Hi. split; cbn; [assumption|discriminate].
Qed.

(** Adding a text block to a document whose one block is editing gives two
    editing blocks. *)
Lemma addBlock_breaks_single_editing :
  at_most_one_editing [blkE] = true /\
  addBlock text "N" (doc [blkE]) = doc [blkE; newBlock text "N"] /\
  at_most_one_editing [blkE; newBlock text "N"] = false.
Proof. repeat split. Qed.

(** C3, as the code has it: on a document with at most one block editing,
    [updateBlockContent], [toggleEditMode] (the identifiers of the
    document being distinct) and a drop leave at most one block editing;
    [addBlock] does exactly when the new block is an image or no block
    of the document is editing. *)
Theorem store_ops_keep_single_editing (D : list Block) :
  at_most_one_editing D = true ->
  (forall i c, exists D',
      updateBlockContent i c (doc D) = Some (doc D') /\
      at_most_one_editing D' = true) /\
  (forall i, NoDup (ids D) -> exists D',
      toggleEditMode i (doc D) = Some (doc D') /\
      at_most_one_editing D' = true) /\
  (forall i j s, dragging D i s -> j < List.length D -> exists D',
      blocks (handleDrop j s) = doc D' /\
      at_most_one_editing D' = true) /\
  (forall ty uuid, exists D',
      addBlock ty uuid (doc D) = doc D' /\
      at_most_one_editing D'
      = (BlockType_eqb ty image || (editing_count D =? 0))).
Proof.
  unfold at_most_one_editing. intros H. apply Nat.leb_le in H.
  repeat split.
  - intros i c. exists (map (update_block i c) D).
    split; [apply array_map_doc|].
    rewrite update_editing_count. now apply Nat.leb_le.
  - intros i Hnd. exists (map (toggle_block i) D).
    split; [apply array_map_doc|].
    apply Nat.leb_le. unfold editing_count.
    apply unique_id_count with i; [now rewrite toggle_ids|].
    intros b' Hin Hed. apply in_map_iff in Hin as (b & <- & _).
    rewrite toggle_block_editing in Hed.
    rewrite (proj1 (toggle_block_frame i b)).
    destruct (String.eqb_spec (id b) i); [assumption|discriminate].
  - intros i j s Hs _.
    destruct (drop_blocks_perm D i j s Hs) as (D' & Hb & Hp).
    exists D'. split; [assumption|].
    rewrite (perm_editing_count D D' Hp). now apply Nat.leb_le.
  - intros ty uuid. exists (D ++ [newBlock ty uuid]).
    split; [apply addBlock_doc|].
    rewrite addBlock_editing_count.
    destruct (BlockType_eqb ty image); cbn [orb].
    + rewrite Nat.add_0_r. now apply Nat.leb_le.
    + destruct (editing_count D) as [|[|n]]; [reflexivity|reflexivity|lia].
Qed.

Lemma store_ops_keep_single_editing_witness :
  (forall i c, exists D',
      updateBlockContent i c (doc [blkA; blkE; blkC]) = Some (doc D') /\
      at_most_one_editing D' = true) /\
  (forall i, NoDup (ids [blkA; blkE; blkC]) -> exists D',
      toggleEditMode i (doc [blkA; blkE; blkC]) = Some (doc D') /\
      at_most_one_editing D' = true) /\
  (forall i j s, dragging [blkA; blkE; blkC] i s -> j < 3 -> exists D',
      blocks (handleDrop j s) = doc D' /\
      at_most_one_editing D' = true) /\
  (forall ty uuid, exists D',
      addBlock ty uuid (doc [blkA; blkE; blkC]) = doc D' /\
      at_most_one_editing D' = (BlockType_eqb ty image || false)).
Proof.
  apply (store_ops_keep_single_editing [blkA; blkE; blkC]).
  reflexivity.
Defined.

Lemma no_image_editing_spec D :
  no_image_editing D = true <->
  forall b, In b D -> is_image b = true -> editing b = false.
Proof.
  unfold no_image_editing. rewrite forallb_forall.
  split; intros H b Hin.
  - intros Him. specialize (H b Hin). rewrite Him in H.
    now destruct (editing b).
  - destruct (is_image b) eqn:Him; [|reflexivity].
    now rewrite (H b Hin Him).
Qed.

Lemma toggle_keeps_images i D :
  (forall b, In b D -> id b = i -> is_image b = false) ->
  no_image_editing (map (toggle_block i) D) = true.
Proof.
  intros Hguard. apply no_image_editing_spec.
  intros b' Hin Him. apply in_map_iff in Hin as (b & <- & Hin).
  rewrite toggle_block_editing.
  destruct (String.eqb_spec (id b) i) as [Heq|_]; [|reflexivity].
  unfold is_image in Him, Hguard.
  rewrite (proj1 (proj2 (toggle_block_frame i b))) in Him.
  rewrite (Hguard b Hin Heq) in Him. discriminate.
Qed.

Lemma update_keeps_images i c D :
  no_image_editing D = true ->
  no_image_editing (map (update_block i c) D) = true.
Proof.
  rewrite !no_image_editing_spec. intros H b' Hin Him.
  apply in_map_iff in Hin as (b & <- & Hin).
  rewrite update_block_editing. apply (H b Hin).
  unfold is_image in *.
  now rewrite (proj1 (proj2 (update_block_frame i c b))) in Him.
Qed.

Lemma addBlock_keeps_images ty uuid D :
  no_image_editing D = true ->
  no_image_editing (D ++ [newBlock ty uuid]) = true.
Proof.
  unfold no_image_editing. intros H. rewrite forallb_app, H.
  now destruct ty.
Qed.

Lemma perm_keeps_images D D' :
  Permutation D' D -> no_image_editing D = true ->
  no_image_editing D' = true.
Proof.
  rewrite !no_image_editing_spec. intros Hp H b Hin.
  apply H. now apply Permutation_in with D'.
Qed.

Lemma holds_same_blocks s s' D :
  holds s D -> blocks s' = blocks s ->
  draggedItemIndex s' = draggedItemIndex s \/ draggedItemIndex s' = None ->
  holds s' D.
Proof.
  intros [Hb Hd] Hb' Hd'. split; [congruence|].
  intros i Hi. destruct Hd' as [Heq|Heq]; rewrite Heq in Hi;
    [now apply Hd|discriminate].
Qed.

(** One allowed operation keeps the state on a document with no image
    block editing. *)
Lemma step_keeps_images s D op s' :
  holds s D -> no_image_editing D = true ->
  presenter_call op s -> step op s = Some s' ->
  exists D', holds s' D' /\ no_image_editing D' = true.
Proof.
  intros Hh Hinv Hcall Hstep. pose proof Hh as [Hb Hd].
  destruct op; cbn in Hstep, Hcall.
  - (* addBlock *)
    unfold setBlocks in Hstep. injection Hstep as <-.
    exists (D ++ [newBlock ty uuid]). split.
    + split; cbn; [rewrite Hb; apply addBlock_doc|].
      intros k Hk. rewrite length_app. specialize (Hd k Hk). lia.
    + now apply addBlock_keeps_images.
  - (* updateBlockContent *)
    unfold setBlocks, updateBlockContent in Hstep.
    rewrite Hb, array_map_doc in Hstep. injection Hstep as <-.
    exists (map (update_block i c) D). split.
    + split; cbn; [reflexivity|]. now rewrite length_map.
    + now apply update_keeps_images.
  - (* toggleEditMode *)
    unfold setBlocks, toggleEditMode in Hstep.
    rewrite Hb, array_map_doc in Hstep. injection Hstep as <-.
    exists (map (toggle_block i) D). split.
    + split; cbn; [reflexivity|]. now rewrite length_map.
    + apply toggle_keeps_images. intros b Hin. apply Hcall.
      rewrite Hb. now apply in_map.
  - (* handleDragStart *)
    unfold handleDragStart in Hstep. rewrite Hb, doc_index in Hstep.
    destruct (nth_error D index) as [block|] eqn:Hn; [|discriminate].
    injection Hstep as <-. exists D. split; [|assumption].
    split; cbn; [reflexivity|]. intros k [= <-].
    apply nth_error_Some. congruence.
  - (* handleDragOver *)
    injection Hstep as <-. exists D. split; [|assumption].
    apply holds_same_blocks with s; [assumption| |]; untouched.
  - (* handleDragLeave *)
    injection Hstep as <-. exists D. split; [|assumption].
    apply holds_same_blocks with s; [assumption| |]; untouched.
  - (* handleDrop *)
    injection Hstep as <-.
    destruct (handleDrop_holds s D index Hh) as (D' & Hh' & Hp).
    exists D'. split; [assumption|]. now apply perm_keeps_images with D.
  - (* handleDragEnd *)
    injection Hstep as <-. exists D. split; [|assumption].
    apply holds_same_blocks with s; [assumption| |]; untouched.
  - (* container: drag over *)
    injection Hstep as <-. exists D. split; [|assumption].
    apply holds_same_blocks with s; [assumption| |]; untouched.
  - (* container: drop *)
    injection Hstep as <-. exists D. split; [|assumption].
    unfold container_onDrop.
    destruct (draggedItemIndex s) as [d|] eqn:Hdr; [|assumption].
    specialize (Hd d eq_refl). rewrite Hb, doc_length.
    destruct (Nat.eqb_spec (List.length D) 0); [lia|assumption].
  - (* container: drag leave *)
    injection Hstep as <-. exists D. split; [|assumption].
    apply holds_same_blocks with s; [assumption| |]; untouched.
Qed.

Lemma unique_id_block D b b' :
  NoDup (ids D) -> In b D -> In b' D -> id b' = id b -> b' = b.
Proof.
  induction D as [|a D IH]; intros Hnd Hb Hb' Heq; [destruct Hb|].
  cbn in Hnd. apply NoDup_cons_iff in Hnd as [Hnotin Hnd].
  destruct Hb as [->|Hb], Hb' as [->|Hb'].
  - reflexivity.
  - exfalso. apply Hnotin. rewrite <- Heq. now apply in_map.
  - exfalso. apply Hnotin. rewrite Heq. now apply in_map.
  - now apply IH.
Qed.

(** [toggleEditMode] with the identifier of an image block puts the image
    block in edit mode. *)
Lemma toggleEditMode_image_enters_editing :
  no_image_editing [blkC] = true /\
  toggleEditMode "C" (doc [blkC])
  = Some (doc [mkBlock "C" image "https://example.org/c.png" (Some true)]) /\
  no_image_editing
    [mkBlock "C" image "https://example.org/c.png" (Some true)] = false.
Proof. repeat split. Qed.

(** C6, as the code has it: from a state whose document has no image block
    editing, the store's operations lead only to such states as long as
    [toggleEditMode] is called with identifiers that no image block
    carries; the double-click handler of a block of a document with
    distinct identifiers calls it so. *)
Theorem presenter_calls_keep_images_not_editing (s0 : State) (D0 : list Block) :
  holds s0 D0 -> no_image_editing D0 = true ->
  (forall s, reachable presenter_call s0 s ->
     exists D, holds s D /\ no_image_editing D = true) /\
  (forall b, In b D0 -> NoDup (ids D0) ->
     exists D', onDoubleClick b (doc D0) = Some (doc D') /\
                no_image_editing D' = true).
Proof.
  intros Hh Hinv. split.
  - intros s Hr. induction Hr as [|s op s' _ IH Hcall Hstep].
    + now exists D0.
    + destruct IH as (D & HhD & HinvD).
      now apply step_keeps_images with s D op.
  - intros b Hin Hnd. unfold onDoubleClick.
    destruct (BlockType_eqb (type b) text || BlockType_eqb (type b) heading)
      eqn:Hty.
    + exists (map (toggle_block (id b)) D0).
      split; [apply array_map_doc|].
      apply toggle_keeps_images. intros b' Hin' Heq.
      rewrite (unique_id_block D0 b b' Hnd Hin Hin' Heq).
      unfold is_image. now destruct (type b).
    + now exists D0.
Qed.

Lemma presenter_calls_keep_images_not_editing_witness :
  (forall s, reachable presenter_call (idle [blkA; blkB; blkC]) s ->
     exists D, holds s D /\ no_image_editing D = true) /\
  (forall b, In b [blkA; blkB; blkC] -> NoDup (ids [blkA; blkB; blkC]) ->
     exists D', onDoubleClick b (doc [blkA; blkB; blkC]) = Some (doc D') /\
                no_image_editing D' = true).
Proof.
  apply (presenter_calls_keep_images_not_editing
           (idle [blkA; blkB; blkC]) [blkA; blkB; blkC]).
  - split; [reflexivity|]. cbn. discriminate.
  - reflexivity.
Defined.


(** ** Editing operations in sequence *)

Lemma toggle_block_content i b : content (toggle_block i b) = content b.
Proof. apply toggle_block_frame. Qed.

Lemma toggle_block_id i b : id (toggle_block i b) = id b.
Proof. apply toggle_block_frame. Qed.

Lemma toggle_block_type i b : type (toggle_block i b) = type b.
Proof. apply toggle_block_frame. Qed.

(** X1: calling [toggleEditMode] twice with the same identifier gives the
    blocks carrying it the editing flag they had and leaves every other
    block not editing; identifiers, types and contents are as before. *)
Theorem toggleEditMode_twice (D : list Block) (i : BlockId) :
  exists D1 D2,
    toggleEditMode i (doc D) = Some (doc D1) /\
    toggleEditMode i (doc D1) = Some (doc D2) /\
    forall k b, nth_error D k = Some b ->
      exists b2, nth_error D2 k = Some b2 /\
                 id b2 = id b /\ type b2 = type b /\
                 content b2 = content b /\
                 editing b2 = (String.eqb (id b) i && editing b).
Proof.
  exists (map (toggle_block i) D), (map (toggle_block i) (map (toggle_block i) D)).
  split; [apply array_map_doc|]. split; [apply array_map_doc|].
  intros k b Hk. exists (toggle_block i (toggle_block i b)).
  split; [now do 2 apply nth_error_doc_map|].
  rewrite !toggle_block_id, !toggle_block_type, !toggle_block_content.
  repeat split.
  rewrite !toggle_block_editing, toggle_block_id.
  destruct (String.eqb (id b) i); [apply negb_involutive|reflexivity].
Qed.

(** X2: [toggleEditMode] with one identifier and then with a different
    one leaves editing exactly the blocks that carry the second
    identifier, whatever the flags were. *)
Theorem toggleEditMode_switch (D : list Block) (i j : BlockId) :
  i <> j ->
  exists D1 D2,
    toggleEditMode i (doc D) = Some (doc D1) /\
    toggleEditMode j (doc D1) = Some (doc D2) /\
    forall k b, nth_error D k = Some b ->
      exists b2, nth_error D2 k = Some b2 /\
                 id b2 = id b /\ content b2 = content b /\
                 editing b2 = String.eqb (id b) j.
Proof.
  intros Hij.
  exists (map (toggle_block i) D), (map (toggle_block j) (map (toggle_block i) D)).
  split; [apply array_map_doc|]. split; [apply array_map_doc|].
  intros k b Hk. exists (toggle_block j (toggle_block i b)).
  split; [now do 2 apply nth_error_doc_map|].
  rewrite !toggle_block_id, !toggle_block_content. repeat split.
  rewrite !toggle_block_editing, toggle_block_id.
  destruct (String.eqb_spec (id b) j) as [Hj|_]; [|reflexivity].
  destruct (String.eqb_spec (id b) i) as [Hi|_]; [congruence|reflexivity].
Qed.

Lemma toggleEditMode_switch_witness :
  exists D1 D2,
    toggleEditMode "A" (doc [blkA; blkB]) = Some (doc D1) /\
    toggleEditMode "B" (doc D1) = Some (doc D2) /\
    forall k b, nth_error [blkA; blkB] k = Some b ->
      exists b2, nth_error D2 k = Some b2 /\
                 id b2 = id b /\ content b2 = content b /\
                 editing b2 = String.eqb (id b) "B".
Proof.
  apply (toggleEditMode_switch [blkA; blkB] "A" "B"). discriminate.
Defined.

Lemma update_block_twice i c1 c2 b :
  update_block i c2 (update_block i c1 b) = update_block i c2 b.
Proof.
  unfold update_block at 2. destruct (String.eqb (id b) i) eqn:Hb.
  - unfold update_block. cbn. now rewrite Hb.
  - reflexivity.
Qed.

(** X3: of two [updateBlockContent] calls with the same identifier the
    second one decides: the document is the one the second call alone
    gives, so repeating a call changes nothing more. *)
Theorem updateBlockContent_last_write (D : list Block) (i : BlockId)
  (c1 c2 : string) :
  exists D1,
    updateBlockContent i c1 (doc D) = Some (doc D1) /\
    updateBlockContent i c2 (doc D1) = updateBlockContent i c2 (doc D) /\
    updateBlockContent i c1 (doc D1) = Some (doc D1).
Proof.
  exists (map (update_block i c1) D).
  split; [apply array_map_doc|].
  unfold updateBlockContent. rewrite !array_map_doc, !map_map.
  split; do 2 f_equal; apply map_ext; intros b; apply update_block_twice.
Qed.

Lemma toggle_update_commute i c j b :
  toggle_block j (update_block i c b) = update_block i c (toggle_block j b).
Proof.
  unfold update_block. rewrite toggle_block_id.
  destruct (String.eqb (id b) i); [|reflexivity].
  unfold toggle_block. cbn. now destruct (String.eqb (id b) j).
Qed.

(** X4: a content update and an edit-mode toggle give the same document in
    either order, for any two identifiers. *)
Theorem update_toggle_commute (D : list Block) (i j : BlockId) (c : string) :
  exists D1 D2,
    updateBlockContent i c (doc D) = Some (doc D1) /\
    toggleEditMode j (doc D) = Some (doc D2) /\
    toggleEditMode j (doc D1) = updateBlockContent i c (doc D2).
Proof.
  exists (map (update_block i c) D), (map (toggle_block j) D).
  split; [apply array_map_doc|]. split; [apply array_map_doc|].
  unfold toggleEditMode, updateBlockContent.
  rewrite !array_map_doc, !map_map. do 2 f_equal.
  apply map_ext. intros b. apply toggle_update_commute.
Qed.

(** ** Drag gestures *)

(** X5: a drop ends the drag it serves, so a drop that follows changes
    nothing, neither does the container's drop handler the event reaches
    next; and a drop after the drag has ended does not reorder. *)
Theorem drop_is_guarded (s : State) (j k : nat) :
  handleDrop k (handleDrop j s) = handleDrop j s /\
  container_onDrop (handleDrop j s) = handleDrop j s /\
  blocks (handleDrop j (handleDragEnd s)) = blocks s.
Proof.
  unfold handleDrop, container_onDrop, handleDragEnd.
  destruct (draggedItemIndex s) as [i|]; [destruct (i =? j)|]; now cbn.
Qed.

Lemma insert_at_past_end {A : Type} (k : nat) (x : A) (l : list A) :
  List.length l <= k -> insert_at k x l = l ++ [x].
Proof.
  intros H. unfold insert_at. now rewrite firstn_all2, skipn_all2.
Qed.

(** X6: a whole gesture on an idle document - drag start on a block, drag
    over an index, drop on it - leaves an idle state whose document is
    what [reorder] gives, a rearrangement of the blocks. *)
Theorem drag_gesture (D : list Block) (i j : nat) :
  i < List.length D ->
  exists D',
    run [DragStart i; DragOver j; Drop j] (idle D) = Some (idle D') /\
    doc D' = reorder (doc D) i j /\
    Permutation D' D.
Proof.
  intros Hi. destruct (reorder_valid D i j Hi) as (x & Hx & Hr).
  exists (insert_at j x (remove_at i D)).
  split; [|split; [now rewrite Hr|now apply moved_perm]].
  cbn [run step]. unfold handleDragStart, idle. cbn [blocks].
  rewrite doc_index, Hx. cbn [run step].
  unfold handleDragOver, handleDrop. cbn [draggedItemIndex].
  destruct (Nat.eqb_spec i j) as [<-|Hij]; cbn -[reorder Nat.eqb].
  - rewrite Nat.eqb_refl. unfold idle.
    now rewrite (insert_at_remove_at _ _ _ Hx).
  - rewrite (proj2 (Nat.eqb_neq i j) Hij). unfold idle. now rewrite Hr.
Qed.

Lemma drag_gesture_witness :
  exists D',
    run [DragStart 2; DragOver 0; Drop 0] (idle [blkA; blkB; blkC])
    = Some (idle D') /\
    doc D' = reorder (doc [blkA; blkB; blkC]) 2 0 /\
    Permutation D' [blkA; blkB; blkC].
Proof. apply (drag_gesture [blkA; blkB; blkC] 2 0). cbn. lia. Defined.

(** X7: a drag that hovers over another index and ends without a drop
    leaves the document and clears the drag, but the hovered index stays
    marked as the drop target: [handleDragEnd] does not reset it, a drag
    leave does. *)
Theorem drag_end_keeps_drop_target (D : list Block) (i j : nat) :
  i < List.length D -> i <> j ->
  (exists s',
     run [DragStart i; DragOver j; DragEnd] (idle D) = Some s' /\
     blocks s' = doc D /\ isDragging s' = false /\
     draggedItemIndex s' = None /\ draggedBlockId s' = None /\
     isDragOver s' j = true) /\
  run [DragStart i; DragOver j; DragLeave; DragEnd] (idle D) = Some (idle D).
Proof.
  intros Hi Hij. destruct (reorder_valid D i j Hi) as (x & Hx & _).
  cbn [run step]. unfold handleDragStart, idle. cbn [blocks].
  rewrite doc_index, Hx. cbn [run step].
  unfold handleDragOver. cbn [draggedItemIndex].
  destruct (Nat.eqb_spec i j); [contradiction|]. cbn.
  split; [|reflexivity].
  eexists. split; [reflexivity|]. cbn. unfold isDragOver. cbn.
  repeat split. apply Nat.eqb_refl.
Qed.

Lemma drag_end_keeps_drop_target_witness :
  (exists s',
     run [DragStart 0; DragOver 1; DragEnd] (idle [blkA; blkB]) = Some s' /\
     blocks s' = doc [blkA; blkB] /\ isDragging s' = false /\
     draggedItemIndex s' = None /\ draggedBlockId s' = None /\
     isDragOver s' 1 = true) /\
  run [DragStart 0; DragOver 1; DragLeave; DragEnd] (idle [blkA; blkB])
  = Some (idle [blkA; blkB]).
Proof.
  apply (drag_end_keeps_drop_target [blkA; blkB] 0 1); [cbn; lia|discriminate].
Defined.

(** X8: on any array [reorder] keeps the length when there is an element
    at [startIndex]; when there is none it removes nothing and puts
    [undefined] in, at [endIndex] or at the end, so the array is one
    longer. *)
Theorem reorder_length (arr : list Slot) (i j : nat) :
  List.length (reorder arr i j)
  = (if i <? List.length arr then List.length arr else S (List.length arr)) /\
  (List.length arr <= i ->
   nth_error (reorder arr i j) (Nat.min j (List.length arr)) = Some None /\
   remove_at (Nat.min j (List.length arr)) (reorder arr i j) = arr).
Proof.
  split.
  - destruct (Nat.ltb_spec i (List.length arr)) as [Hlt|Hge].
    + destruct (nth_error arr i) as [x|] eqn:Hx;
        [|apply nth_error_None in Hx; lia].
      apply nth_error_split in Hx as (a1 & a2 & -> & <-).
      rewrite reorder_split, insert_at_length, !length_app. cbn. lia.
    + rewrite reorder_out_of_range by assumption. apply insert_at_length.
  - intros Hge. rewrite reorder_out_of_range by assumption.
    destruct (Nat.le_ge_cases j (List.length arr)) as [Hj|Hj].
    + rewrite Nat.min_l by assumption.
      split; [now apply insert_at_nth|now apply remove_at_insert_at].
    + rewrite Nat.min_r by assumption.
      rewrite insert_at_past_end by assumption.
      split.
      * rewrite nth_error_app2, Nat.sub_diag; [reflexivity|apply Nat.le_refl].
      * pose proof (remove_at_split arr None []) as H.
        rewrite app_nil_r in H. exact H.
Qed.

(** X9: with a block at [startIndex] and an [endIndex] at or past the last
    position, [reorder] moves the block to the end of the document. *)
Theorem reorder_to_end (D : list Block) (i j : nat) (x : Block) :
  nth_error D i = Some x -> List.length D - 1 <= j ->
  reorder (doc D) i j = doc (remove_at i D ++ [x]).
Proof.
  intros Hx Hj. rewrite (reorder_doc D i j x Hx).
  rewrite insert_at_past_end; [reflexivity|].
  pose proof (remove_at_length _ _ _ Hx). lia.
Qed.

Lemma reorder_to_end_witness :
  reorder (doc [blkA; blkB; blkC]) 0 7 = doc (remove_at 0 [blkA; blkB; blkC] ++ [blkA]).
Proof.
  apply (reorder_to_end [blkA; blkB; blkC] 0 7 blkA); [reflexivity|cbn; lia].
Defined.

Lemma array_map_throws f arr : array_map f arr = None <-> In None arr.
Proof.
  induction arr as [|[b|] arr IH]; cbn.
  - split; [discriminate|tauto].
  - destruct (array_map f arr).
    + split; [discriminate|]. intros [H|H]; [discriminate|].
      now apply IH in H.
    + split; [|reflexivity]. intros _. right. now apply IH.
  - split; [now left|reflexivity].
Qed.

(** X10: [toggleEditMode] and [updateBlockContent] throw exactly on an
    array that holds [undefined], so after a [reorder] from a start index
    with no element every such call throws. *)
Theorem edits_throw_on_undefined (arr : list Slot) (i : BlockId) (c : string) :
  (toggleEditMode i arr = None <-> In None arr) /\
  (updateBlockContent i c arr = None <-> In None arr) /\
  (forall start j, List.length arr <= start ->
     toggleEditMode i (reorder arr start j) = None /\
     updateBlockContent i c (reorder arr start j) = None).
Proof.
  split; [apply array_map_throws|]. split; [apply array_map_throws|].
  intros start j Hge.
  assert (Hin : In None (reorder arr start j)).
  { rewrite reorder_out_of_range by assumption.
    unfold insert_at. apply in_or_app. right. now left. }
  split; now apply array_map_throws.
Qed.

(** ** What every operation keeps *)

Lemma update_ids i c D : ids (map (update_block i c) D) = ids D.
Proof.
  unfold ids. rewrite map_map. apply map_ext.
  intros b. apply update_block_frame.
Qed.

Lemma ids_app D D' : ids (D ++ D') = ids D ++ ids D'.
Proof. apply map_app. Qed.

(** One operation on a state that holds a document gives a state that
    holds a document: the old one with the new block appended for
    [addBlock], one with the same identifiers up to order otherwise. *)
Lemma step_shape s D op s' :
  holds s D -> step op s = Some s' ->
  exists D', holds s' D' /\
    ((exists ty uuid, op = AddBlock ty uuid /\ D' = D ++ [newBlock ty uuid])
     \/ Permutation (ids D') (ids D)).
Proof.
  intros Hh Hstep. pose proof Hh as [Hb Hd].
  destruct op; cbn in Hstep.
  - unfold setBlocks in Hstep. injection Hstep as <-.
    exists (D ++ [newBlock ty uuid]). split; [|left; eauto].
    split; cbn; [rewrite Hb; apply addBlock_doc|].
    intros k Hk. rewrite length_app. specialize (Hd k Hk). lia.
  - unfold setBlocks, updateBlockContent in Hstep.
    rewrite Hb, array_map_doc in Hstep. injection Hstep as <-.
    exists (map (update_block i c) D). split.
    + split; cbn; [reflexivity|]. now rewrite length_map.
    + right. now rewrite update_ids.
  - unfold setBlocks, toggleEditMode in Hstep.
    rewrite Hb, array_map_doc in Hstep. injection Hstep as <-.
    exists (map (toggle_block i) D). split.
    + split; cbn; [reflexivity|]. now rewrite length_map.
    + right. now rewrite toggle_ids.
  - unfold handleDragStart in Hstep. rewrite Hb, doc_index in Hstep.
    destruct (nth_error D index) as [block|] eqn:Hn; [|discriminate].
    injection Hstep as <-. exists D. split; [|now right].
    split; cbn; [reflexivity|]. intros k [= <-].
    apply nth_error_Some. congruence.
  - injection Hstep as <-. exists D. split; [|now right].
    apply holds_same_blocks with s; [assumption| |]; untouched.
  - injection Hstep as <-. exists D. split; [|now right].
    apply holds_same_blocks with s; [assumption| |]; untouched.
  - injection Hstep as <-.
    destruct (handleDrop_holds s D index Hh) as (D' & Hh' & Hp).
    exists D'. split; [assumption|]. right. now apply Permutation_map.
  - injection Hstep as <-. exists D. split; [|now right].
    apply holds_same_blocks with s; [assumption| |]; untouched.
  - injection Hstep as <-. exists D. split; [|now right].
    apply holds_same_blocks with s; [assumption| |]; untouched.
  - injection Hstep as <-. exists D. split; [|now right].
    unfold container_onDrop.
    destruct (draggedItemIndex s) as [d|] eqn:Hdr; [|assumption].
    specialize (Hd d eq_refl). rewrite Hb, doc_length.
    destruct (Nat.eqb_spec (List.length D) 0); [lia|assumption].
  - injection Hstep as <-. exists D. split; [|now right].
    apply holds_same_blocks with s; [assumption| |]; untouched.
Qed.

Lemma ids_length D : List.length (ids D) = List.length D.
Proof. apply length_map. Qed.

(** X11: in a state that holds a document the only operation that throws
    is a drag start at an index with no block. *)
Theorem only_drag_start_throws (s : State) (D : list Block) (op : Op) :
  holds s D ->
  (step op s = None <->
   exists index, op = DragStart index /\ List.length D <= index).
Proof.
  intros [Hb _]. split.
  - destruct op; cbn; try discriminate;
      unfold setBlocks, updateBlockContent, toggleEditMode;
      rewrite ?Hb, ?array_map_doc; try discriminate.
    unfold handleDragStart. rewrite Hb, doc_index.
    destruct (nth_error D index) eqn:Hn; [discriminate|].
    intros _. exists index. split; [reflexivity|].
    now apply nth_error_None.
  - intros (index & -> & Hge). cbn. unfold handleDragStart.
    rewrite Hb, doc_index.
    now rewrite (proj2 (nth_error_None D index) Hge).
Qed.

Lemma only_drag_start_throws_witness :
  step (DragStart 5) (idle [blkA; blkB]) = None <->
  exists index, DragStart 5 = DragStart index /\ 2 <= index.
Proof.
  apply (only_drag_start_throws (idle [blkA; blkB]) [blkA; blkB] (DragStart 5)).
  split; [reflexivity|]. cbn. discriminate.
Defined.

Lemma keeps_blocks_refl arr : keeps_blocks arr arr.
Proof. split; [apply Nat.le_refl|tauto]. Qed.

Lemma keeps_blocks_trans a1 a2 a3 :
  keeps_blocks a1 a2 -> keeps_blocks a2 a3 -> keeps_blocks a1 a3.
Proof.
  intros [Hl1 Hc1] [Hl2 Hc2]. split; [lia|]. intros i Hi. now apply Hc2, Hc1.
Qed.

Lemma keeps_blocks_incl arr arr' :
  List.length arr <= List.length arr' ->
  (forall x, In x arr -> In x arr') -> keeps_blocks arr arr'.
Proof.
  intros Hl Hin. split; [assumption|].
  intros i (b & Hb & Hid). exists b. split; [now apply Hin|assumption].
Qed.

Lemma array_map_keeps f arr arr' :
  (forall b, id (f b) = id b) -> array_map f arr = Some arr' ->
  keeps_blocks arr arr'.
Proof.
  intros Hf. revert arr'.
  induction arr as [|[b|] arr IH]; intros arr' H; cbn in H;
    try discriminate.
  - injection H as <-. apply keeps_blocks_refl.
  - destruct (array_map f arr) as [rest|]; [|discriminate].
    injection H as <-. destruct (IH rest eq_refl) as [Hl Hc].
    split; [cbn; lia|].
    intros i (b0 & [Hb0|Hb0] & Hid).
    + injection Hb0 as ->. exists (f b0).
      split; [now left|]. now rewrite Hf.
    + destruct (Hc i) as (b1 & Hb1 & Hid1); [now exists b0|].
      exists b1. split; [now right|assumption].
Qed.

(** [reorder] loses no element of the array, wherever it starts. *)
Lemma reorder_keeps arr i j : keeps_blocks arr (reorder arr i j).
Proof.
  destruct (nth_error arr i) as [x|] eqn:Hx.
  - apply nth_error_split in Hx as (a1 & a2 & -> & <-).
    rewrite reorder_split. apply keeps_blocks_incl.
    + rewrite insert_at_length, !length_app. cbn. lia.
    + intros y Hy.
      apply Permutation_in with (x :: a1 ++ a2);
        [symmetry; apply insert_at_perm|].
      apply Permutation_in with (a1 ++ x :: a2);
        [symmetry; apply Permutation_middle|assumption].
  - apply nth_error_None in Hx. rewrite reorder_out_of_range by assumption.
    apply keeps_blocks_incl.
    + rewrite insert_at_length. lia.
    + intros y Hy.
      apply Permutation_in with (None :: arr);
        [symmetry; apply insert_at_perm|now right].
Qed.

(** No operation loses a block, whether it returns or throws. *)
Lemma next_keeps op s s' :
  next op s = Some s' -> keeps_blocks (blocks s) (blocks s').
Proof.
  unfold next. destruct op; cbn [step after_throw]; intros H.
  - unfold setBlocks in H. cbn in H. injection H as <-. cbn.
    apply keeps_blocks_incl.
    + unfold addBlock. rewrite length_app. lia.
    + intros x Hx. apply in_or_app. now left.
  - unfold setBlocks in H.
    destruct (updateBlockContent i c (blocks s)) as [arr'|] eqn:Hu;
      [|discriminate].
    injection H as <-. cbn. apply (array_map_keeps _ _ _
      (fun b => proj1 (update_block_frame i c b)) Hu).
  - unfold setBlocks in H.
    destruct (toggleEditMode i (blocks s)) as [arr'|] eqn:Hu;
      [|discriminate].
    injection H as <-. cbn. apply (array_map_keeps _ _ _
      (fun b => proj1 (toggle_block_frame i b)) Hu).
  - unfold handleDragStart in H.
    destruct (index_or_undefined (blocks s) index);
      injection H as <-; apply keeps_blocks_refl.
  - injection H as <-.
    replace (blocks (handleDragOver index s)) with (blocks s) by untouched.
    apply keeps_blocks_refl.
  - injection H as <-. apply keeps_blocks_refl.
  - injection H as <-. unfold handleDrop.
    destruct (draggedItemIndex s) as [d|]; [|apply keeps_blocks_refl].
    destruct (d =? index); [apply keeps_blocks_refl|apply reorder_keeps].
  - injection H as <-. apply keeps_blocks_refl.
  - injection H as <-.
    replace (blocks (container_onDragOver s)) with (blocks s) by untouched.
    apply keeps_blocks_refl.
  - injection H as <-. unfold container_onDrop.
    destruct (draggedItemIndex s) as [d|]; [|apply keeps_blocks_refl].
    destruct (blocks s) as [|x arr] eqn:Hb; cbn.
    + split; [cbn; lia|]. intros i (b & [] & _).
    + rewrite Hb. apply keeps_blocks_refl.
  - injection H as <-.
    replace (blocks (container_onDragLeave s)) with (blocks s) by untouched.
    apply keeps_blocks_refl.
Qed.

(** X12: no sequence of operations loses a block.  From any state, with
    the operations called in any order and with any arguments, and the
    component going on after a drag start that throws, the array never
    gets shorter and holds a block for every identifier it held one
    for. *)
Theorem blocks_are_never_lost (s0 s : State) :
  reachable_past_throws s0 s ->
  List.length (blocks s0) <= List.length (blocks s) /\
  forall i, carries (blocks s0) i -> carries (blocks s) i.
Proof.
  intros Hr. change (keeps_blocks (blocks s0) (blocks s)).
  induction Hr as [|s op s' _ IH Hnext].
  - apply keeps_blocks_refl.
  - apply keeps_blocks_trans with (blocks s); [assumption|].
    now apply next_keeps with op.
Qed.

Lemma blocks_are_never_lost_witness :
  2 <= List.length
         (blocks (handleDrop 0 (mkState (doc [blkA; blkB]) true None (Some 5)
                                  None))) /\
  forall i, carries (doc [blkA; blkB]) i ->
            carries (blocks (handleDrop 0 (mkState (doc [blkA; blkB]) true
                                             None (Some 5) None))) i.
Proof.
  apply (blocks_are_never_lost (idle [blkA; blkB])).
  apply past_throws_next
    with (s := mkState (doc [blkA; blkB]) true None (Some 5) None)
         (op := Drop 0); [|reflexivity].
  apply past_throws_next with (s := idle [blkA; blkB]) (op := DragStart 5);
    [apply past_throws_init|reflexivity].
Defined.

(** X22: a drag start at an index with no block throws, but only after it
    has recorded the drag: the component goes on with [isDragging] set and
    the index in [draggedItemIndex], the stored identifier as it was.  A
    drop at any other index then puts [undefined] into the array and
    keeps every block; [handleDragEnd] instead clears the drag and leaves
    the document. *)
Theorem throwing_drag_start_is_recorded
  (D : list Block) (s : State) (index : nat) :
  blocks s = doc D -> List.length D <= index ->
  step (DragStart index) s = None /\
  exists s1,
    next (DragStart index) s = Some s1 /\
    blocks s1 = doc D /\ isDragging s1 = true /\
    draggedItemIndex s1 = Some index /\
    draggedBlockId s1 = draggedBlockId s /\
    (forall j, j <> index ->
       blocks (handleDrop j s1) = insert_at j None (doc D)) /\
    blocks (handleDragEnd s1) = doc D /\
    draggedItemIndex (handleDragEnd s1) = None.
Proof.
  intros Hb Hge.
  assert (Hthrow : step (DragStart index) s = None).
  { cbn. unfold handleDragStart. rewrite Hb, doc_index.
    now rewrite (proj2 (nth_error_None D index) Hge). }
  split; [exact Hthrow|].
  unfold next. rewrite Hthrow. cbn [after_throw].
  eexists. split; [reflexivity|]. cbn [blocks isDragging draggedItemIndex
                                        draggedBlockId handleDragEnd].
  repeat split; try assumption.
  intros j Hj. unfold handleDrop. cbn [draggedItemIndex blocks].
  rewrite (proj2 (Nat.eqb_neq index j)) by congruence.
  cbn [blocks]. rewrite Hb. apply reorder_out_of_range.
  now rewrite doc_length.
Qed.

Lemma throwing_drag_start_is_recorded_witness :
  step (DragStart 5) (idle [blkA; blkB]) = None /\
  exists s1,
    next (DragStart 5) (idle [blkA; blkB]) = Some s1 /\
    blocks s1 = doc [blkA; blkB] /\ isDragging s1 = true /\
    draggedItemIndex s1 = Some 5 /\
    draggedBlockId s1 = None /\
    (forall j, j <> 5 ->
       blocks (handleDrop j s1) = insert_at j None (doc [blkA; blkB])) /\
    blocks (handleDragEnd s1) = doc [blkA; blkB] /\
    draggedItemIndex (handleDragEnd s1) = None.
Proof.
  apply (throwing_drag_start_is_recorded [blkA; blkB] (idle [blkA; blkB]) 5);
    [reflexivity|cbn; lia].
Defined.





(** X13: when every [addBlock] comes with an identifier that no block
    carries, the identifiers of the document stay distinct through any
    sequence of operations. *)
Theorem ids_stay_unique (s0 : State) (D0 : list Block) (s : State) :
  holds s0 D0 -> NoDup (ids D0) -> reachable fresh_uuid s0 s ->
  exists D, holds s D /\ NoDup (ids D).
Proof.
  intros Hh Hnd Hr. induction Hr as [|s op s' _ IH Hfresh Hstep].
  - now exists D0.
  - destruct IH as (D & HhD & HndD).
    destruct (step_shape s D op s' HhD Hstep) as (D' & Hh' & Hshape).
    exists D'. split; [assumption|].
    destruct Hshape as [(ty & uuid & -> & ->)|Hp].
    + rewrite ids_app. cbn.
      apply Permutation_NoDup with (uuid :: ids D);
        [apply Permutation_cons_append|].
      constructor; [|assumption].
      intros Hin. apply in_map_iff in Hin as (b & Hid & Hin).
      cbn in Hfresh. apply (Hfresh b); [|assumption].
      destruct HhD as [-> _]. now apply in_map.
    + apply Permutation_NoDup with (ids D); [now symmetry|assumption].
Qed.

Lemma ids_stay_unique_witness :
  exists D, holds (mkState (addBlock text "N" (doc [blkA; blkB])) false None
                     None None) D /\
            NoDup (ids D).
Proof.
  apply (ids_stay_unique (idle [blkA; blkB]) [blkA; blkB]).
  - split; [reflexivity|]. cbn. discriminate.
  - cbn. repeat constructor; cbn; intuition discriminate.
  - apply reachable_step with (s := idle [blkA; blkB]) (op := AddBlock text "N").
    + apply reachable_init.
    + cbn. intros b [H|[H|[]]]; injection H as <-; discriminate.
    + reflexivity.
Defined.

(** X14: the editing operations leave the drag state alone, and of the
    drag handlers only a drop changes the [blocks] array; the container's
    drop handler can change it only when it is empty. *)
Theorem handlers_frame (s : State) (op : Op) (s' : State) :
  step op s = Some s' ->
  match op with
  | AddBlock _ _ | UpdateBlockContent _ _ | ToggleEditMode _ =>
      isDragging s' = isDragging s /\
      dragOverIndex s' = dragOverIndex s /\
      draggedItemIndex s' = draggedItemIndex s /\
      draggedBlockId s' = draggedBlockId s
  | Drop _ => True
  | ContainerDrop => blocks s' = blocks s \/ blocks s = []
  | _ => blocks s' = blocks s
  end.
Proof.
  intros Hstep. destruct op; cbn in Hstep.
  - unfold setBlocks in Hstep. injection Hstep as <-. now cbn.
  - unfold setBlocks in Hstep.
    destruct (updateBlockContent i c (blocks s)); [|discriminate].
    injection Hstep as <-. now cbn.
  - unfold setBlocks in Hstep.
    destruct (toggleEditMode i (blocks s)); [|discriminate].
    injection Hstep as <-. now cbn.
  - unfold handleDragStart in Hstep.
    destruct (index_or_undefined (blocks s) index); [|discriminate].
    now injection Hstep as <-.
  - injection Hstep as <-. untouched.
  - injection Hstep as <-. untouched.
  - exact I.
  - injection Hstep as <-. untouched.
  - injection Hstep as <-. untouched.
  - injection Hstep as <-. unfold container_onDrop.
    destruct (draggedItemIndex s); [|now left].
    destruct (blocks s) eqn:Hb; cbn; auto.
  - injection Hstep as <-. untouched.
Qed.

Lemma handlers_frame_witness :
  blocks (handleDragOver 1 (mkState (doc [blkA; blkB]) true None (Some 0)
                              (Some "A")))
  = doc [blkA; blkB].
Proof.
  apply (handlers_frame
           (mkState (doc [blkA; blkB]) true None (Some 0) (Some "A"))
           (DragOver 1)).
  reflexivity.
Defined.

(** ** The presenter's handlers on the store *)

Lemma editing_count_none D :
  (forall b, In b D -> editing b = false) -> editing_count D = 0.
Proof.
  unfold editing_count. induction D as [|b D IH]; intros H; [reflexivity|].
  cbn. rewrite (H b (or_introl eq_refl)). apply IH.
  intros b' Hin. apply H. now right.
Qed.

Lemma toggle_closes_editor D b :
  NoDup (ids D) -> In b D -> editing b = true ->
  editing_count (map (toggle_block (id b)) D) = 0.
Proof.
  intros Hnd Hin Hed. apply editing_count_none.
  intros b' Hin'. apply in_map_iff in Hin' as (b0 & <- & Hin0).
  rewrite toggle_block_editing.
  destruct (String.eqb_spec (id b0) (id b)) as [Heq|_]; [|reflexivity].
  rewrite (unique_id_block D b b0 Hnd Hin Hin0 Heq), Hed. reflexivity.
Qed.

(** X15: in a document with distinct identifiers, Escape, Enter (for a
    text block: Enter without Shift) and a blur on the input of the
    editing block all give the same document, in which no block is
    editing and every identifier and content is as before; only Enter
    prevents the default action.  Shift+Enter in a text block, and any
    other key, leave the array as it is. *)
Theorem key_commit_leaves_edit_mode :
  (forall (D : list Block) (b : Block) (key : string) (shiftKey : bool),
      NoDup (ids D) -> In b D -> editing b = true ->
      key = "Escape" \/ (key = "Enter" /\ (shiftKey = false \/ type b <> text)) ->
      exists D',
        handleKeyDown key shiftKey b (doc D)
        = (String.eqb key "Enter", Some (doc D')) /\
        onBlur b (doc D) = Some (doc D') /\
        editing_count D' = 0 /\
        ids D' = ids D /\
        map content D' = map content D) /\
  (forall (b : Block) (key : string) (shiftKey : bool) (arr : list Slot),
      (key = "Enter" /\ shiftKey = true /\ type b = text)
      \/ (key <> "Enter" /\ key <> "Escape") ->
      handleKeyDown key shiftKey b arr = (false, Some arr)).
Proof.
  split.
  - intros D b key shiftKey Hnd Hin Hed Hkey.
    exists (map (toggle_block (id b)) D).
    assert (Ht : toggleEditMode (id b) (doc D)
                 = Some (doc (map (toggle_block (id b)) D)))
      by apply array_map_doc.
    split; [|split; [exact Ht|split; [now apply toggle_closes_editor|split]]].
    + unfold handleKeyDown. rewrite Ht.
      destruct Hkey as [->|[-> Hs]]; [reflexivity|].
      cbn. destruct Hs as [->|Hty]; [reflexivity|].
      destruct shiftKey, (type b); try reflexivity. contradiction.
    + apply toggle_ids.
    + rewrite map_map. apply map_ext. intros b0. apply toggle_block_content.
  - intros b key shiftKey arr [(-> & -> & Hty)|[Hne Hnx]]; unfold handleKeyDown.
    + now rewrite Hty.
    + apply String.eqb_neq in Hne, Hnx. now rewrite Hne, Hnx.
Qed.

Lemma key_commit_leaves_edit_mode_witness :
  exists D',
    handleKeyDown "Enter" false blkE (doc [blkA; blkE])
    = (String.eqb "Enter" "Enter", Some (doc D')) /\
    onBlur blkE (doc [blkA; blkE]) = Some (doc D') /\
    editing_count D' = 0 /\
    ids D' = ids [blkA; blkE] /\
    map content D' = map content [blkA; blkE].
Proof.
  apply (proj1 key_commit_leaves_edit_mode [blkA; blkE] blkE "Enter" false).
  - cbn. repeat constructor; cbn; intuition discriminate.
  - cbn. tauto.
  - reflexivity.
  - right. split; [reflexivity|now left].
Defined.

Lemma unique_id_position D k k' b b' :
  NoDup (ids D) -> nth_error D k = Some b -> nth_error D k' = Some b' ->
  id b' = id b -> k' = k.
Proof.
  intros Hnd Hk Hk' Heq.
  apply (proj1 (NoDup_nth_error (ids D)) Hnd).
  - rewrite ids_length. apply nth_error_Some. congruence.
  - unfold ids. rewrite !nth_error_map, Hk, Hk'. cbn. now rewrite Heq.
Qed.

(** X16: in a document with distinct identifiers, a double click on a
    text or heading block that is not editing makes that block, and no
    other, render as an input control, and makes it, and no other,
    undraggable. *)
Theorem double_click_opens_editor (D : list Block) (k : nat) (b : Block) :
  NoDup (ids D) -> nth_error D k = Some b ->
  is_image b = false -> editing b = false ->
  exists D',
    onDoubleClick b (doc D) = Some (doc D') /\
    forall k' b', nth_error D' k' = Some b' ->
      is_input (renderBlockContent b') = (k' =? k) /\
      draggable b' = negb (k' =? k).
Proof.
  intros Hnd Hk Him Hed. exists (map (toggle_block (id b)) D). split.
  - unfold onDoubleClick. unfold is_image in Him.
    destruct (type b); try discriminate; apply array_map_doc.
  - intros k' b' Hk'. rewrite nth_error_map in Hk'.
    destruct (nth_error D k') as [b0|] eqn:Hb0; [|discriminate].
    injection Hk' as <-.
    pose proof (toggle_block_editing (id b) b0) as Hte.
    pose proof (toggle_block_type (id b) b0) as Hty.
    unfold editing in Hte. unfold renderBlockContent, draggable.
    rewrite Hty, Hte.
    destruct (String.eqb_spec (id b0) (id b)) as [Heq|Hne].
    + pose proof (unique_id_position D k k' b b0 Hnd Hk Hb0 Heq) as ->.
      assert (b0 = b) by congruence. subst b0.
      rewrite Nat.eqb_refl. unfold editing in Hed. rewrite Hed.
      unfold is_image in Him. destruct (type b); try discriminate;
        now split.
    + destruct (Nat.eqb_spec k' k) as [->|_].
      * exfalso. apply Hne. congruence.
      * destruct (type b0); now split.
Qed.

Lemma double_click_opens_editor_witness :
  exists D',
    onDoubleClick blkB (doc [blkA; blkB; blkC]) = Some (doc D') /\
    forall k' b', nth_error D' k' = Some b' ->
      is_input (renderBlockContent b') = (k' =? 1) /\
      draggable b' = negb (k' =? 1).
Proof.
  apply (double_click_opens_editor [blkA; blkB; blkC] 1 blkB);
    try reflexivity.
  cbn. repeat constructor; cbn; intuition discriminate.
Defined.

(** X17: in a document with distinct identifiers, after a drag start on
    the block at an index exactly that block counts as being dragged;
    after the drop or the end of the drag no block does. *)
Theorem drag_start_marks_dragged_block
  (D : list Block) (i : nat) (b : Block) (s : State) :
  NoDup (ids D) -> blocks s = doc D -> nth_error D i = Some b ->
  exists s',
    handleDragStart i s = Some s' /\
    (forall k b', nth_error D k = Some b' -> beingDragged s' b' = (k =? i)) /\
    (forall j b', beingDragged (handleDrop j s') b' = false) /\
    (forall b', beingDragged (handleDragEnd s') b' = false).
Proof.
  intros Hnd Hb Hi. unfold handleDragStart. rewrite Hb, doc_index, Hi.
  eexists. split; [reflexivity|]. split; [|split].
  - intros k b' Hk. unfold beingDragged. cbn.
    destruct (String.eqb_spec (id b') (id b)) as [Heq|Hne].
    + rewrite (unique_id_position D i k b b' Hnd Hi Hk Heq).
      symmetry. apply Nat.eqb_refl.
    + destruct (Nat.eqb_spec k i) as [->|_]; [|reflexivity].
      exfalso. apply Hne. congruence.
  - intros j b'. unfold beingDragged, handleDrop. cbn.
    now destruct (i =? j).
  - intros b'. reflexivity.
Qed.

Lemma drag_start_marks_dragged_block_witness :
  exists s',
    handleDragStart 1 (idle [blkA; blkB; blkC]) = Some s' /\
    (forall k b', nth_error [blkA; blkB; blkC] k = Some b' ->
                  beingDragged s' b' = (k =? 1)) /\
    (forall j b', beingDragged (handleDrop j s') b' = false) /\
    (forall b', beingDragged (handleDragEnd s') b' = false).
Proof.
  apply (drag_start_marks_dragged_block [blkA; blkB; blkC] 1 blkB);
    try reflexivity.
  cbn. repeat constructor; cbn; intuition discriminate.
Defined.

(** X18: of the grid cells of the blocks at [2k] and [2k+1] exactly one
    gets the two-column class, and the classes repeat every four
    blocks. *)
Theorem cell_class_pairs (k : nat) :
  ((cell_class (2 * k) = "col-span-1 sm:col-span-2" /\
    cell_class (2 * k + 1) = "col-span-1 sm:col-span-1") \/
   (cell_class (2 * k) = "col-span-1 sm:col-span-1" /\
    cell_class (2 * k + 1) = "col-span-1 sm:col-span-2")) /\
  cell_class (k + 4) = cell_class k.
Proof.
  split.
  - unfold cell_class. destruct (Nat.Even_or_Odd k) as [[q ->]|[q ->]].
    + left.
      replace (2 * (2 * q)) with (0 + q * 4) by lia.
      replace (0 + q * 4 + 1) with (1 + q * 4) by lia.
      rewrite !Nat.Div0.mod_add. now split.
    + right.
      replace (2 * (2 * q + 1) + 1) with (3 + q * 4) by lia.
      replace (2 * (2 * q + 1)) with (2 + q * 4) by lia.
      rewrite !Nat.Div0.mod_add. now split.
  - unfold cell_class.
    replace (k + 4) with (k + 1 * 4) by lia.
    now rewrite Nat.Div0.mod_add.
Qed.

(** ** A move, position by position *)

Lemma remove_at_nth {A : Type} (i k : nat) (l : list A) :
  nth_error (remove_at i l) k
  = if k <? i then nth_error l k else nth_error l (S k).
Proof.
  unfold remove_at.
  rewrite nth_error_app, length_firstn, nth_error_firstn, nth_error_skipn.
  destruct (Nat.ltb_spec k (Nat.min i (List.length l))) as [Hlt|Hge];
    destruct (Nat.ltb_spec k i) as [Hki|Hki]; try lia; try reflexivity.
  - assert (Hlen : List.length l <= k) by lia.
    rewrite (proj2 (nth_error_None l k) Hlen).
    apply nth_error_None. lia.
  - destruct (Nat.le_gt_cases i (List.length l)) as [Hil|Hil].
    + f_equal. lia.
    + rewrite (proj2 (nth_error_None l (S k))) by lia.
      apply nth_error_None. lia.
Qed.

Lemma insert_at_nth_any {A : Type} (j k : nat) (x : A) (l : list A) :
  j <= List.length l ->
  nth_error (insert_at j x l) k
  = if k <? j then nth_error l k
    else if k =? j then Some x else nth_error l (k - 1).
Proof.
  intros Hj. unfold insert_at.
  rewrite nth_error_app, length_firstn, Nat.min_l, nth_error_firstn
    by assumption.
  destruct (Nat.ltb_spec k j) as [Hlt|Hge]; [reflexivity|].
  destruct (Nat.eqb_spec k j) as [->|Hne].
  - now rewrite Nat.sub_diag.
  - destruct (k - j) as [|m] eqn:Hm; [lia|]. cbn.
    rewrite nth_error_skipn. f_equal. lia.
Qed.

(** X19: a move from [i] to [j] is no swap.  The block at [i] lands at
    [j]; the blocks between the two positions each shift by one place
    towards [i]; every block outside the two positions stays where it
    was. *)
Theorem reorder_pointwise (D : list Block) (i j : nat) :
  i < List.length D -> j < List.length D ->
  exists D',
    reorder (doc D) i j = doc D' /\
    (forall k, nth_error D' k =
       if k =? j then nth_error D i
       else if k <? j
            then (if k <? i then nth_error D k else nth_error D (S k))
            else (if k <=? i then nth_error D (k - 1) else nth_error D k)) /\
    (forall k, k < Nat.min i j \/ Nat.max i j < k ->
               nth_error D' k = nth_error D k).
Proof.
  intros Hi Hj. destruct (reorder_valid D i j Hi) as (x & Hx & Hr).
  exists (insert_at j x (remove_at i D)). split; [assumption|].
  assert (Hle : j <= List.length (remove_at i D))
    by (pose proof (remove_at_length _ _ _ Hx); lia).
  assert (Hform : forall k,
    nth_error (insert_at j x (remove_at i D)) k =
       if k =? j then nth_error D i
       else if k <? j
            then (if k <? i then nth_error D k else nth_error D (S k))
            else (if k <=? i then nth_error D (k - 1) else nth_error D k)).
  { intros k. rewrite insert_at_nth_any by assumption.
    rewrite !remove_at_nth.
    destruct (Nat.eqb_spec k j) as [->|Hne].
    - rewrite Nat.ltb_irrefl. now rewrite Hx.
    - destruct (Nat.ltb_spec k j) as [Hlt|Hge]; [reflexivity|].
      destruct (Nat.ltb_spec (k - 1) i), (Nat.leb_spec k i);
        try lia; try reflexivity.
      f_equal. lia. }
  split; [exact Hform|].
  intros k Hk. rewrite Hform.
  destruct (Nat.eqb_spec k j); [lia|].
  destruct (Nat.ltb_spec k j), (Nat.ltb_spec k i), (Nat.leb_spec k i);
    try lia; reflexivity.
Qed.

Lemma reorder_pointwise_witness :
  exists D',
    reorder (doc [blkA; blkB; blkC; blkE]) 0 2 = doc D' /\
    (forall k, nth_error D' k =
       if k =? 2 then nth_error [blkA; blkB; blkC; blkE] 0
       else if k <? 2
            then (if k <? 0 then nth_error [blkA; blkB; blkC; blkE] k
                  else nth_error [blkA; blkB; blkC; blkE] (S k))
            else (if k <=? 0 then nth_error [blkA; blkB; blkC; blkE] (k - 1)
                  else nth_error [blkA; blkB; blkC; blkE] k)) /\
    (forall k, k < Nat.min 0 2 \/ Nat.max 0 2 < k ->
               nth_error D' k = nth_error [blkA; blkB; blkC; blkE] k).
Proof.
  apply (reorder_pointwise [blkA; blkB; blkC; blkE] 0 2); cbn; lia.
Defined.

(** X20: what is typed is what is shown.  In a document with distinct
    identifiers, after the change handler of the editing block's input
    has run with a value, that block renders as the input control with
    that value - for a text block a textarea with one row per line, and
    at least two - and every other block is as it was. *)
Theorem typed_value_is_rendered
  (D : list Block) (k : nat) (b : Block) (value : string) :
  NoDup (ids D) -> nth_error D k = Some b ->
  editing b = true -> is_image b = false ->
  exists D',
    onChange value b (doc D) = Some (doc D') /\
    (exists b', nth_error D' k = Some b' /\
       renderBlockContent b' =
         match type b with
         | heading => input_text value
         | _ => textarea value (Nat.max 2 (split_length value))
         end) /\
    (forall k' b0, k' <> k -> nth_error D k' = Some b0 ->
                   nth_error D' k' = Some b0).
Proof.
  intros Hnd Hk Hed Him. exists (map (update_block (id b) value) D).
  split; [apply array_map_doc|]. split.
  - exists (update_block (id b) value b).
    split; [now apply nth_error_doc_map|].
    unfold update_block. rewrite String.eqb_refl.
    unfold renderBlockContent. cbn.
    unfold editing in Hed. rewrite Hed.
    unfold is_image in Him. now destruct (type b).
  - intros k' b0 Hne Hk'. rewrite nth_error_map, Hk'. cbn. f_equal.
    unfold update_block.
    destruct (String.eqb_spec (id b0) (id b)) as [Heq|_]; [|reflexivity].
    exfalso. apply Hne.
    now apply (unique_id_position D k k' b b0 Hnd Hk Hk').
Qed.

Lemma typed_value_is_rendered_witness :
  exists D',
    onChange "one" blkE (doc [blkA; blkE]) = Some (doc D') /\
    (exists b', nth_error D' 1 = Some b' /\
       renderBlockContent b' = textarea "one" (Nat.max 2 (split_length "one"))) /\
    (forall k' b0, k' <> 1 -> nth_error [blkA; blkE] k' = Some b0 ->
                   nth_error D' k' = Some b0).
Proof.
  apply (typed_value_is_rendered [blkA; blkE] 1 blkE "one");
    try reflexivity.
  cbn. repeat constructor; cbn; intuition discriminate.
Defined.

(** X21: the class string of a block's element tells the three highlights
    apart, in the order dragged, drop target, editing: two elements have
    the same string exactly when both or neither are being dragged and,
    if neither, both or neither are the drop target and, if neither,
    both or neither are editing. *)
Theorem item_style_tells_state
  (s : State) (b : Block) (i : nat) (s' : State) (b' : Block) (i' : nat) :
  getItemStyle s b i = getItemStyle s' b' i' <->
  (beingDragged s b = beingDragged s' b' /\
   (beingDragged s b = false ->
    isDragOver s i = isDragOver s' i' /\
    (isDragOver s i = false -> editing b = editing b'))).
Proof.
  unfold getItemStyle, editing.
  destruct (beingDragged s b), (beingDragged s' b'),
    (isDragOver s i), (isDragOver s' i'),
    (truthy (isEditing b)), (truthy (isEditing b'));
    (split;
     [ intros H; first [ discriminate H | intuition congruence ]
     | intros H; first [ reflexivity | exfalso; intuition discriminate ] ]).
Qed.
